(** * wiz: registry location, installation and process execution

    A shallow embedding of [wiz/registry.py] and [wiz/spawn.py].

    - [Py] and [PosixPath] hold the pieces of the Python runtime the two
      modules lean on ([str.split], [str.startswith], [os.path.join],
      [os.path.abspath], ...), written after CPython 2.7's [posixpath].
    - [Registry] embeds [get_local], [get_defaults], [fetch], [discover],
      [install_to_path] and [install_to_vcs].  Every external collaborator
      ([wiz.filesystem], [wiz.export_definition], [requests], [mlog]) is an
      oracle of the environment and every call to one is recorded, with
      its answer, in a chronological log.
    - [Spawn] embeds [shell]: terminal mode handling and the
      pseudo-terminal forwarding loop, driven by a script of operating
      system answers. *)

From stdpp Require Import gmap strings list.
From Stdlib Require Import ZArith Ascii String.
From Stdlib.Strings Require Import Byte.

#[local] Set Warnings "-register-all".
#[local] Open Scope string_scope.
#[local] Open Scope list_scope.
#[local] Open Scope stdpp_scope.

(** ** Python strings *)

Module Py.

(** [s.startswith(prefix)] *)
Fixpoint startswith (s prefix : string) {struct prefix} : bool :=
  match prefix, s with
  | EmptyString, _ => true
  | String _ _, EmptyString => false
  | String p prefix', String c s' => Ascii.eqb c p && startswith s' prefix'
  end.

(** [s.endswith(suffix)] *)
Fixpoint endswith (s suffix : string) : bool :=
  (s =? suffix)%string ||
  match s with
  | EmptyString => false
  | String _ s' => endswith s' suffix
  end.

(** [s.split(sep)] for a one character separator: never an empty list. *)
Fixpoint split (sep : ascii) (s : string) : list string :=
  match s with
  | EmptyString => [EmptyString]
  | String c s' =>
      if Ascii.eqb c sep then EmptyString :: split sep s'
      else match split sep s' with
           | h :: t => String c h :: t
           | [] => [String c EmptyString]
           end
  end.

(** [sep.join(parts)] *)
Fixpoint join (sep : string) (parts : list string) : string :=
  match parts with
  | [] => EmptyString
  | [x] => x
  | x :: rest => x +:+ sep +:+ join sep rest
  end.

(** [needle in haystack] on two strings. *)
Fixpoint contains (haystack needle : string) : bool :=
  startswith haystack needle ||
  match haystack with
  | EmptyString => false
  | String _ h' => contains h' needle
  end.

(** Truth value of a string: only the empty string is falsy. *)
Definition truthy (s : string) : bool := negb (s =? "")%string.

End Py.

(** ** [os.path] on a POSIX system ([os.sep] is ["/"]) *)

Module PosixPath.

Definition sep : ascii := "/"%char.

Definition isabs (path : string) : bool := Py.startswith path "/".

(** One round of the loop of [posixpath.join(a, *p)]. *)
Definition join2 (path b : string) : string :=
  if Py.startswith b "/" then b
  else if (path =? "")%string || Py.endswith path "/" then path +:+ b
  else path +:+ "/" +:+ b.

(** [os.path.join(a, *p)] *)
Definition join (a : string) (p : list string) : string :=
  fold_left join2 p a.

(** Body of the [for comp in comps] loop of [posixpath.normpath]. *)
Definition normpath_step (initial_slashes : nat)
    (new_comps : list string) (comp : string) : list string :=
  if (comp =? "")%string || (comp =? ".")%string then new_comps
  else if negb (comp =? "..")%string
          || ((initial_slashes =? 0)%nat && bool_decide (new_comps = []))
          || bool_decide (last new_comps = Some "..")
       then new_comps ++ [comp]
       else removelast new_comps.

Definition normpath (path : string) : string :=
  if (path =? "")%string then "."
  else
    let initial_slashes :=
      if Py.startswith path "/" then
        if Py.startswith path "//" && negb (Py.startswith path "///")
        then 2%nat else 1%nat
      else 0%nat in
    let comps := Py.split sep path in
    let new_comps := fold_left (normpath_step initial_slashes) comps [] in
    let path := Py.join "/" new_comps in
    let path :=
      match initial_slashes with
      | 0%nat => path
      | 1%nat => "/" +:+ path
      | _ => "//" +:+ path
      end in
    if (path =? "")%string then "." else path.

(** [os.path.abspath(path)], with [cwd] the answer of [os.getcwd()]. *)
Definition abspath (cwd path : string) : string :=
  normpath (if isabs path then path else join2 cwd path).

End PosixPath.

(** ** [wiz/registry.py] *)

Module Registry.

(** *** Values exchanged with the outside *)

(** What [response.json()] decodes to. *)
Inductive json :=
| JNull
| JBool (b : bool)
| JNumber (z : Z)
| JString (s : string)
| JArray (items : list json)
| JObject (members : gmap string json).

(** Texts built with [str.format].  A constructor stands for one format
    string of the module and keeps the values that fill it. *)
Inductive Message :=
| NotARegistryDirectory (registry_path : string)
    (* "{!r} is not a valid registry directory." *)
| AlreadyExists (identifier : string) (version : option string)
    (* "Definition '{identifier}-{version}' already exists." *)
| RegistriesNotRetrieved (error : json)
    (* "Vault registries could not be retrieved: {}" *)
| NotARegistry (registry_identifier : string)
    (* "{!r} is not a valid registry." *)
| CouldNotInstall (registry : string) (error : json)
    (* "Definition could not be installed to registry {registry!r}: {error}" *)
| Installed (identifier : string) (version : option string)
    (registry : string).
    (* "Successfully installed {identifier}-{version} to "
       "registry {registry!r}." *)

(** Exceptions.  [DefinitionsExist] and [InstallNoChanges] are the two
    classes of [wiz.exception] the unit tests expect; the others are
    raised or caught by [registry.py], or come from the runtime. *)
Inductive exn :=
| InstallError (m : Message)
| DefinitionExists (m : Message)
| DefinitionsExist (count : nat)
| InstallNoChanges
| FileExists
| AttributeError
| TypeError
| ValueError
| OSError
| RequestException.

Inductive outcome (A : Type) :=
| Return (a : A)
| Raise (e : exn).
Arguments Return {A} a.
Arguments Raise {A} e.

(** A [requests.Response], as far as the module reads it. *)
Record Response := {
  ok : bool;
  status_code : Z;
  json_body : outcome json            (* response.json() *)
}.

(** A [wiz.definition.Definition], as far as the module reads it. *)
Record WizDefinition := {
  identifier : string;
  version : option string;
  encode : string                      (* definition.encode() *)
}.

(** A value of the [data] dictionary handed to [requests.post]. *)
Inductive FormValue :=
| Text (s : string)
| CommitMessage (identifier : string) (version : option string)
    (username name : string).
    (* "Add {identifier!r} [{version}] to registry ({username})"
       "\n\nauthor: {name}" *)

(** *** Calls that leave the module, each with the answer it got *)

Inductive Event :=
| IsAccessible (path : string) (answer : bool)
    (* wiz.filesystem.is_accessible(path) *)
| IsDir (path : string) (answer : bool)
    (* os.path.isdir(path) *)
| Access (path : string) (answer : bool)
    (* os.access(path, os.R_OK) *)
| Remove (path : string)
    (* os.remove(path) *)
| ExportDefinition (path : string) (definition : WizDefinition)
    (overwrite : bool) (answer : outcome unit)
    (* wiz.export_definition(path, definition, overwrite=overwrite) *)
| Get (url : string) (answer : outcome Response)
    (* requests.get(url) *)
| Post (url : string) (params : gmap string string)
    (data : gmap string FormValue) (answer : outcome Response)
    (* requests.post(url, params=params, data=data) *)
| GetUsername (answer : string)
    (* wiz.filesystem.get_username() *)
| GetName (answer : option string)
    (* wiz.filesystem.get_name() *)
| Info (m : Message).
    (* logger.info(m) *)

(** The world around one call.  An oracle sees the log so far, so its
    answers may change from one call to the next. *)
Record Env := {
  getcwd : string;                     (* os.getcwd() *)
  home : string;                       (* os.path.expanduser("~") *)
  wiz_server : string;                 (* wiz.symbol.WIZ_SERVER *)
  is_accessible : list Event -> string -> bool;
  isdir : list Event -> string -> bool;
  access : list Event -> string -> bool;
  export_definition :
    list Event -> string -> WizDefinition -> bool -> outcome unit;
  requests_get : list Event -> string -> outcome Response;
  requests_post :
    list Event -> string -> gmap string string -> gmap string FormValue ->
    outcome Response;
  get_username : list Event -> string;
  get_name : list Event -> option string
}.

(** *** Computations: an environment, a growing log, a result or an
    exception *)

Definition M (A : Type) : Type :=
  Env -> list Event -> outcome A * list Event.

Definition ret {A} (a : A) : M A := fun _ log => (Return a, log).

Definition bind {A B} (m : M A) (f : A -> M B) : M B :=
  fun env log =>
    match m env log with
    | (Return a, log') => f a env log'
    | (Raise e, log') => (Raise e, log')
    end.

Notation "'let*' x ':=' m 'in' k" := (bind m (fun x => k))
  (at level 10, x name, m at level 100, k at level 200, only parsing).

Definition raise {A} (e : exn) : M A := fun _ log => (Raise e, log).

Definition lift {A} (o : outcome A) : M A := fun _ log => (o, log).

Definition asks {A} (field : Env -> A) : M A :=
  fun env log => (Return (field env), log).

(** [try: body / except: handler] *)
Definition try_except {A} (body : M A) (handler : exn -> M A) : M A :=
  fun env log =>
    match body env log with
    | (Return a, log') => (Return a, log')
    | (Raise e, log') => handler e env log'
    end.

(** A call to an oracle that cannot fail. *)
Definition call {A} (oracle : Env -> list Event -> A)
    (event : A -> Event) : M A :=
  fun env log => let a := oracle env log in (Return a, log ++ [event a]).

(** A call to an oracle that may raise. *)
Definition call_outcome {A} (oracle : Env -> list Event -> outcome A)
    (event : outcome A -> Event) : M A :=
  fun env log => let a := oracle env log in (a, log ++ [event a]).

Definition logger_info (m : Message) : M unit :=
  fun _ log => (Return tt, log ++ [Info m]).

(** *** Python on decoded JSON *)

(** [value.get(key, default)]: only a dictionary has [get]. *)
Definition py_get (value : json) (key : string) (default_ : json)
    : outcome json :=
  match value with
  | JObject members => Return (default default_ (members !! key))
  | _ => Raise AttributeError
  end.

Definition is_string (s : string) (value : json) : bool :=
  match value with
  | JString s' => (s =? s')%string
  | _ => false
  end.

(** [s in container]: keys of a dictionary, items of a list, substrings
    of a string; the other values are not iterable. *)
Definition py_in (s : string) (container : json) : outcome bool :=
  match container with
  | JObject members => Return (bool_decide (is_Some (members !! s)))
  | JArray items => Return (existsb (is_string s) items)
  | JString text => Return (Py.contains text s)
  | _ => Raise TypeError
  end.

(** [json.dumps] of a boolean. *)
Definition json_dumps_bool (b : bool) : string :=
  if b then "true" else "false".

(** *** The oracles as computations *)

Definition is_accessible_ (path : string) : M bool :=
  call (fun env log => is_accessible env log path) (IsAccessible path).

Definition os_path_isdir (path : string) : M bool :=
  call (fun env log => isdir env log path) (IsDir path).

Definition os_access (path : string) : M bool :=
  call (fun env log => access env log path) (Access path).

Definition wiz_export_definition (path : string)
    (definition : WizDefinition) (overwrite : bool) : M unit :=
  call_outcome
    (fun env log => export_definition env log path definition overwrite)
    (ExportDefinition path definition overwrite).

Definition requests_get_ (url : string) : M Response :=
  call_outcome (fun env log => requests_get env log url) (Get url).

Definition requests_post_ (url : string) (params : gmap string string)
    (data : gmap string FormValue) : M Response :=
  call_outcome (fun env log => requests_post env log url params data)
    (Post url params data).

Definition get_username_ : M string := call get_username GetUsername.

Definition get_name_ : M (option string) := call get_name GetName.

(** *** The module *)

(** [get_local()]: [None] when the directory is missing or unreadable.
    [and] evaluates [os.access] only after [os.path.isdir] said yes. *)
Definition get_local : M (option string) :=
  let* home_ := asks home in
  let registry_path := PosixPath.join home_ [".wiz"; "registry"] in
  let* is_dir := os_path_isdir registry_path in
  let* readable := (if is_dir then os_access registry_path else ret false) in
  ret (if readable then Some registry_path else None).

Definition get_defaults : list string :=
  let server_root :=
    PosixPath.join "/" ["mill3d"; "server"; "apps"; "WIZ"] in
  [ PosixPath.join server_root ["registry"; "primary"; "default"];
    PosixPath.join server_root ["registry"; "secondary"; "default"];
    PosixPath.join "/" ["jobs"; ".wiz"; "registry"; "default"] ].

(** The [for folder in ...] loop of [discover]; the result lists what
    the generator yields, in the order it yields it. *)
Fixpoint discover_loop (folders : list string) (prefix : string)
    : M (list string) :=
  match folders with
  | [] => ret []
  | folder :: folders' =>
      let prefix := PosixPath.join prefix [folder] in
      let registry_path := PosixPath.join prefix [".wiz"; "registry"] in
      let* accessible := is_accessible_ registry_path in
      let* yielded := discover_loop folders' prefix in
      ret (if accessible : bool then registry_path :: yielded
            else yielded)
  end.

(** [list(discover(path))]: the generator run to its end. *)
Definition discover (path : string) : M (list string) :=
  let* cwd := asks getcwd in
  let path := PosixPath.abspath cwd path in
  let prefix := PosixPath.join "/" ["jobs"; "ads"] in
  if negb (Py.startswith path prefix) then ret []
  else discover_loop (drop 3 (Py.split PosixPath.sep path)) prefix.

(** The [for path in paths] loop of [fetch]. *)
Fixpoint fetch_paths (paths : list string) (registries : list string)
    : M (list string) :=
  match paths with
  | [] => ret registries
  | path :: paths' =>
      let* accessible := is_accessible_ path in
      if negb accessible then fetch_paths paths' registries
      else fetch_paths paths' (registries ++ [path])
  end.

Definition fetch (paths : list string)
    (include_local include_working_directory : bool)
    : M (list string) :=
  let* registries := fetch_paths paths [] in
  let* registries :=
    (if include_working_directory then
       let* cwd := asks getcwd in
       let* discovered := discover cwd in
       ret (registries ++ discovered)
     else ret registries) in
  let* registry_path := get_local in
  ret (match registry_path with
        | Some local_path =>
            if Py.truthy local_path && include_local
            then registries ++ [local_path]
            else registries
        | None => registries
        end).

Definition install_to_path (definition : WizDefinition)
    (registry_path : string) (overwrite : bool) : M unit :=
  let* is_dir := os_path_isdir registry_path in
  if negb is_dir then
    raise (InstallError (NotARegistryDirectory registry_path))
  else
    let* cwd := asks getcwd in
    let registry_path := PosixPath.abspath cwd registry_path in
    let registry_path :=
      if negb (Py.endswith registry_path ".wiz/registry")
      then PosixPath.join registry_path [".wiz"; "registry"]
      else registry_path in
    let* exported := try_except
          (wiz_export_definition registry_path definition overwrite)
          (fun e =>
             match e with
             | FileExists =>
                 raise (DefinitionExists
                          (AlreadyExists (identifier definition)
                                         (version definition)))
             | _ => raise e
             end) in
    logger_info
      (Installed (identifier definition) (version definition)
                 registry_path).

(** [response.json().get("error", {}).get("message", "unknown")] *)
Definition error_message (response : Response) : M json :=
  let* body := lift (json_body response) in
  let* error := lift (py_get body "error" (JObject ∅)) in
  lift (py_get error "message" (JString "unknown")).

(** The end of [install_to_vcs]: what becomes of the answer to the
    [POST]. *)
Definition release_outcome (definition : WizDefinition)
    (registry_identifier : string) (response : Response) : M unit :=
  if ok response then
    logger_info
      (Installed (identifier definition) (version definition)
                 registry_identifier)
  else if (status_code response =? 409)%Z then
    raise (DefinitionExists
             (AlreadyExists (identifier definition)
                            (version definition)))
  else
    let* error := error_message response in
    raise (InstallError (CouldNotInstall registry_identifier error)).

Definition install_to_vcs (definition : WizDefinition)
    (registry_identifier : string) (overwrite : bool) : M unit :=
  let* server := asks wiz_server in
  let* response := requests_get_ (server +:+ "/api/registry/all") in
  if negb (ok response) then
    let* error := error_message response in
    raise (InstallError (RegistriesNotRetrieved error))
  else
    let* body := lift (json_body response) in
    let* data := lift (py_get body "data" (JObject ∅)) in
    let* registry_identifiers := lift (py_get data "content" (JObject ∅)) in
    let* known := lift (py_in registry_identifier registry_identifiers) in
    if negb known then
      raise (InstallError (NotARegistry registry_identifier))
    else
      let* username := get_username_ in
      let* name := get_name_ in
      let name :=
        match name with
        | Some n => if Py.truthy n then n else "unknown"
        | None => "unknown"
        end in
      let* response :=
        requests_post_
          (server +:+ "/api/registry/" +:+ registry_identifier
                  +:+ "/release")
          {[ "overwrite" := json_dumps_bool overwrite ]}
          (<[ "content" := Text (encode definition) ]>
             {[ "message" :=
                  CommitMessage (identifier definition)
                    (version definition) username name ]}) in
      release_outcome definition registry_identifier response.

End Registry.

(** ** [wiz/spawn.py] *)

Module Spawn.

(** The three descriptors [shell] touches: [sys.stdin], [sys.stdout]
    and the controlling side of the pseudo-terminal. *)
Inductive Fd := Stdin | Stdout | Master.

Definition Fd_eqb (a b : Fd) : bool :=
  match a, b with
  | Stdin, Stdin | Stdout, Stdout | Master, Master => true
  | _, _ => false
  end.

(** [fd in read_list] *)
Definition ready (fd : Fd) (read_list : list Fd) : bool :=
  existsb (Fd_eqb fd) read_list.

Inductive exn :=
| TermiosError          (* termios.error: stdin is not a terminal *)
| OSError               (* os.read, os.write, pty.openpty, Popen *)
| TypeError             (* Popen(None): no executable was found *)
| SelectError           (* select.error: the wait was interrupted *)
| KeyboardInterrupt.    (* SIGINT delivered to the interpreter *)

Inductive answer (A : Type) :=
| Ok (a : A)
| Fails (e : exn).
Arguments Ok {A} a.
Arguments Fails {A} e.

(** One pass through the body of the [while] loop, as the operating
    system plays it. *)
Record Round := {
  read_list : list Fd;                 (* first result of select.select *)
  read_answer : answer (list byte);    (* what os.read returns *)
  write_answer : answer unit           (* whether os.write goes through *)
}.

Inductive Tick :=
| Exited (returncode : Z)              (* process.poll() is not None *)
| Selected (round : Round)             (* poll() is None, select returns *)
| Interrupted (e : exn).               (* poll() is None, select raises *)

(** Everything the operating system answers during one call. *)
Record Script := {
  find_executable : string -> option string;
  tcgetattr_error : option exn;
  setraw_error : option exn;
  openpty_error : option exn;
  popen_error : option exn;
  ticks : list Tick;
  tcsetattr_error : option exn
}.

(** How a call of [shell] stands when the script is used up. *)
Inductive Exit :=
| Returned
| Raised (e : exn)
| Running.                             (* still blocked inside the loop *)

Section WithMode.

(** [Mode]: what [termios.tcgetattr] returns.  [raw m]: the mode
    [tty.setraw] installs on a terminal found in mode [m]. *)
Variable Mode : Type.
Variable raw : Mode -> Mode.

Inductive Call :=
| Tcgetattr
| Setraw
| Openpty
| Popen (executable : option string)
    (environment : gmap string string)
| Poll
| Select
| Read (fd : Fd) (size : Z)
| Write (fd : Fd) (message : list byte)
| Tcsetattr (mode : Mode).

(** The trace keeps the calls of one loop iteration together, next to
    the round that drove them. *)
Inductive Entry :=
| Once (c : Call)
| Turn (round : Round) (calls : list Call).

Record World := {
  tty : Mode;                        (* mode of the controlling terminal *)
  trace : list Entry
}.

Definition record (e : Entry) (w : World) : World :=
  {| tty := tty w; trace := trace w ++ [e] |}.

Definition set_tty (m : Mode) (w : World) : World :=
  {| tty := m; trace := trace w |}.

(** A system call that either goes through or raises. *)
Definition attempt (error : option exn) (c : Call) (w : World)
    (k : World -> Exit * World) : Exit * World :=
  match error with
  | Some e => (Raised e, record (Once c) w)
  | None => k (record (Once c) w)
  end.

(** The [if ... elif ...] of the loop body: the verdict and the calls
    made. *)
Definition turn (r : Round) : answer unit * list Call :=
  if ready Stdin (read_list r) then
    match read_answer r with
    | Ok message =>
        (write_answer r, [Read Stdin 10240; Write Master message])
    | Fails e => (Fails e, [Read Stdin 10240])
    end
  else if ready Master (read_list r) then
    match read_answer r with
    | Ok [] => (Ok tt, [Read Master 10240])
    | Ok message =>
        (write_answer r, [Read Master 10240; Write Stdout message])
    | Fails e => (Fails e, [Read Master 10240])
    end
  else (Ok tt, []).

(** [while process.poll() is None: ...] *)
Fixpoint loop (script : list Tick) (w : World) : Exit * World :=
  match script with
  | [] => (Running, w)
  | Exited _ :: _ => (Returned, record (Once Poll) w)
  | Interrupted e :: _ =>
      (Raised e, record (Once Select) (record (Once Poll) w))
  | Selected r :: script' =>
      let w := record (Once Select) (record (Once Poll) w) in
      let (verdict, calls) := turn r in
      let w := record (Turn r calls) w in
      match verdict with
      | Ok _ => loop script' w
      | Fails e => (Raised e, w)
      end
  end.

Definition shell (environment : gmap string string)
    (shell_type : string) (script : Script) (w : World)
    : Exit * World :=
  let executable := find_executable script shell_type in
  let old_tty := tty w in
  attempt (tcgetattr_error script) Tcgetattr w (fun w =>
  attempt (setraw_error script) Setraw w (fun w =>
  let w := set_tty (raw old_tty) w in
  attempt (openpty_error script) Openpty w (fun w =>
  attempt
    (match executable with
     | None => Some TypeError
     | Some _ => popen_error script
     end)
    (Popen executable environment) w (fun w =>
  match loop (ticks script) w with
  | (Returned, w) =>
      attempt (tcsetattr_error script) (Tcsetattr old_tty) w (fun w =>
      (Returned, set_tty old_tty w))
  | stopped => stopped
  end)))).

End WithMode.

Arguments Tcgetattr {Mode}.
Arguments Setraw {Mode}.
Arguments Openpty {Mode}.
Arguments Popen {Mode} executable environment.
Arguments Poll {Mode}.
Arguments Select {Mode}.
Arguments Read {Mode} fd size.
Arguments Write {Mode} fd message.
Arguments Tcsetattr {Mode} mode.
Arguments Once {Mode} c.
Arguments Turn {Mode} round calls.
Arguments tty {Mode} w.
Arguments trace {Mode} w.
Arguments turn {Mode} r.
Arguments loop {Mode} script w.
Arguments shell {Mode} raw environment shell_type script w.

End Spawn.

(** ** Terminal modes of a Linux terminal

    The attribute list of [termios.tcgetattr] and the mode [tty.setraw]
    derives from it (CPython 2.7, [Lib/tty.py]), with the flag values of
    Linux's [termios.h]. *)

Module Tty.

#[local] Open Scope Z_scope.

Record termios := {
  iflag : Z; oflag : Z; cflag : Z; lflag : Z;
  ispeed : Z; ospeed : Z;
  cc : list Z
}.

Definition BRKINT := 2.
Definition ICRNL := 256.
Definition INPCK := 16.
Definition ISTRIP := 32.
Definition IXON := 1024.
Definition OPOST := 1.
Definition CSIZE := 48.
Definition PARENB := 256.
Definition CS8 := 48.
Definition ECHO := 8.
Definition ICANON := 2.
Definition IEXTEN := 32768.
Definition ISIG := 1.
Definition VTIME := 5%nat.
Definition VMIN := 6%nat.

Definition lor_all (flags : list Z) : Z := fold_left Z.lor flags 0.

(** The mode [tty.setraw] writes back. *)
Definition setraw (mode : termios) : termios := {|
  iflag :=
    Z.land (iflag mode)
           (Z.lnot (lor_all [BRKINT; ICRNL; INPCK; ISTRIP; IXON]));
  oflag := Z.land (oflag mode) (Z.lnot OPOST);
  cflag :=
    Z.lor (Z.land (cflag mode) (Z.lnot (Z.lor CSIZE PARENB))) CS8;
  lflag :=
    Z.land (lflag mode) (Z.lnot (lor_all [ECHO; ICANON; IEXTEN; ISIG]));
  ispeed := ispeed mode;
  ospeed := ospeed mode;
  cc := <[VTIME := 0]> (<[VMIN := 1]> (cc mode))
|}.

(** A terminal as a login shell leaves it: canonical input, echo,
    signals, output processing, 38400 baud. *)
Definition cooked : termios := {|
  iflag := 17664;            (* ICRNL | IXON | IUTF8 *)
  oflag := 5;                (* OPOST | ONLCR *)
  cflag := 191;              (* B38400 | CS8 | CREAD *)
  lflag := 35387;            (* ISIG | ICANON | ECHO | ECHOE | ECHOK
                                | ECHOCTL | ECHOKE | IEXTEN *)
  ispeed := 15;
  ospeed := 15;
  cc := [3; 28; 127; 21; 4; 0; 1; 0; 17; 19; 26; 0; 18; 15; 23; 22]
|}.

End Tty.

(** ** The discovery root and the levels below it *)

(** [os.path.join(os.sep, "jobs", "ads")] *)
Definition discovery_root : string := "/jobs/ads".

(** A folder name: not empty, no separator inside. *)
Fixpoint no_sep (s : string) : bool :=
  match s with
  | EmptyString => true
  | String c s' => negb (Ascii.eqb c PosixPath.sep) && no_sep s'
  end.

Definition folder_name (f : string) : bool :=
  negb (f =? "")%string && no_sep f.

(** The folders [f1; ...; fn] written as ["/f1/.../fn"]. *)
Fixpoint below (folders : list string) : string :=
  match folders with
  | [] => ""
  | f :: folders' => "/" +:+ f +:+ below folders'
  end.

(** [abs] is the discovery root or a directory [folders] deep under it. *)
Definition under_root (abs : string) (folders : list string) : Prop :=
  Forall (fun f => folder_name f = true) folders /\
  abs = discovery_root +:+ below folders.

(** [abs] lies under the discovery root: it is the root, or the root
    followed by a separator and more. *)
Definition below_root (abs : string) : Prop :=
  abs = discovery_root \/ Py.startswith abs (discovery_root +:+ "/") = true.

(** The directories between [base] (excluded) and [base/f1/.../fn]
    (included), nearest to [base] first. *)
Fixpoint levels (base : string) (folders : list string) : list string :=
  match folders with
  | [] => []
  | f :: folders' =>
      (base +:+ "/" +:+ f) :: levels (base +:+ "/" +:+ f) folders'
  end.

(** [<level>/.wiz/registry] *)
Definition registry_of (level : string) : string :=
  level +:+ "/.wiz/registry".

(** A folder name that [os.path.normpath] leaves in place. *)
Definition plain_name (f : string) : bool :=
  folder_name f && negb (f =? ".")%string && negb (f =? "..")%string.

(** The paths whose accessibility check was answered with yes. *)
Definition answered_yes (paths : list string) (answers : list bool)
    : list string :=
  (filter (fun pa => pa.2 = true) (zip paths answers)).*1.

(** ** What the forwarding loop may do in one iteration *)





(** A round the loop body gets through without an exception. *)
Definition served {Mode : Type} (r : Spawn.Round) : Prop :=
  fst (Spawn.turn (Mode := Mode) r) = Spawn.Ok tt.

(** ** Readings of [install_to_path] and [install_to_vcs] *)

Section Readings.

Import Registry.

(** The registry directory a root stands for. *)
Definition registry_directory (cwd root : string) : string :=
  let absolute := PosixPath.abspath cwd root in
  if Py.endswith absolute ".wiz/registry" then absolute
  else PosixPath.join absolute [".wiz"; "registry"].

Definition is_export (e : Event) : bool :=
  match e with
  | ExportDefinition _ _ _ _ => true
  | _ => false
  end.

(** [response.json().get("error", {}).get("message", "unknown")], as a
    value. *)
Definition server_message (response : Response) : outcome json :=
  match json_body response with
  | Return body =>
      match py_get body "error" (JObject ∅) with
      | Return error => py_get error "message" (JString "unknown")
      | Raise e => Raise e
      end
  | Raise e => Raise e
  end.

(** [InstallError] around the server's message, unless reading the message
    raised. *)
Definition install_error (wrap : json -> Message) (response : Response)
    : outcome unit :=
  match server_message response with
  | Return message => Raise (InstallError (wrap message))
  | Raise e => Raise e
  end.

Definition registries_url (env : Env) : string :=
  wiz_server env +:+ "/api/registry/all".

Definition release_url (env : Env) (registry_identifier : string) : string :=
  wiz_server env +:+ "/api/registry/" +:+ registry_identifier +:+ "/release".

(** The form [install_to_vcs] posts. *)
Definition release_form (definition : WizDefinition) (username : string)
    (name : option string) : gmap string FormValue :=
  <[ "content" := Text (encode definition) ]>
    {[ "message" :=
         CommitMessage (identifier definition) (version definition) username
           match name with
           | Some n => if Py.truthy n then n else "unknown"
           | None => "unknown"
           end ]}.

End Readings.

(** ** Scenarios *)

Module Scenario.

Import Registry.

(** The three definitions of the unit tests. *)
Definition foo : WizDefinition :=
  {| identifier := "foo"; version := Some "0.1.0";
     encode := "{'identifier': 'foo', 'version': '0.1.0'}" |}.
Definition bar : WizDefinition :=
  {| identifier := "bar"; version := None;
     encode := "{'identifier': 'bar'}" |}.
Definition baz : WizDefinition :=
  {| identifier := "baz"; version := Some "2.5.1";
     encode := "{'identifier': 'baz', 'version': '2.5.1'}" |}.

(** [baz] 2.5.1 as a registry may already hold it, with a description
    the new one does not have. *)
Definition baz_described : WizDefinition :=
  {| identifier := "baz"; version := Some "2.5.1";
     encode :=
       "{'identifier': 'baz', 'version': '2.5.1', 'description': 'test'}"
  |}.

Definition same_request (a b : WizDefinition) : bool :=
  (identifier a =? identifier b)%string &&
  bool_decide (version a = version b).

(** Modelled from the spec: the Definition Store Adapter's
    [serialize(path, definition, overwrite) -> void | FileExists], which
    [wiz.export_definition] stands for, over a registry that holds the
    definitions [held]: writing over one of them needs [overwrite]. *)
Definition serialize (held : list WizDefinition) (path : string)
    (definition : WizDefinition) (overwrite : bool) : outcome unit :=
  if negb overwrite && existsb (same_request definition) held
  then Raise FileExists
  else Return tt.

(** The answer of the vault to [GET /api/registry/all] in the unit
    tests. *)
Definition registries_body : json :=
  JObject
    {[ "data" :=
         JObject
           {[ "content" :=
                JObject
                  {[ "registry-id" :=
                       JObject
                         (<[ "identifier" := JString "registry-id" ]>
                            {[ "description" :=
                                 JString "This is a registry" ]}) ]} ]} ]}.

Definition response (ok_ : bool) (code : Z) (body : json) : Response :=
  {| ok := ok_; status_code := code; json_body := Return body |}.

(** A world: a working directory, the accessible paths, the definitions
    the target registry holds, and the vault's answer to a release. *)
Definition world (cwd : string) (accessible : string -> bool)
    (held : list WizDefinition) (release : Response) : Env :=
  {| getcwd := cwd;
     home := "/usr/people/me";
     wiz_server := "https://wiz.themill.com";
     is_accessible := fun _ path => accessible path;
     isdir := fun _ _ => true;
     access := fun _ _ => true;
     export_definition := fun _ => serialize held;
     requests_get := fun _ _ => Return (response true 200 registries_body);
     requests_post := fun _ _ _ _ => Return release;
     get_username := fun _ => "jdoe";
     get_name := fun _ => Some "John Doe" |}.

Definition created : Response := response true 200 (JObject ∅).

(** The mock of [test_discover]: the answers [False, True, False, True]
    handed out one call after the other. *)
Definition answers_in_turn (answers : list bool) : Env :=
  {| getcwd := "/";
     home := "/usr/people/me";
     wiz_server := "https://wiz.themill.com";
     is_accessible := fun log _ => nth (List.length log) answers false;
     isdir := fun _ _ => true;
     access := fun _ _ => true;
     export_definition := fun _ => serialize [];
     requests_get := fun _ _ => Return (response true 200 registries_body);
     requests_post := fun _ _ _ _ => Return created;
     get_username := fun _ => "jdoe";
     get_name := fun _ => Some "John Doe" |}.

Import Spawn.

Definition bytes_of (s : string) : list byte := list_byte_of_string s.

(** An operating system on which every setup call goes through and
    [bash] is found. *)
Definition session (script : list Tick) : Script :=
  {| find_executable := fun _ => Some "/bin/bash";
     tcgetattr_error := None;
     setraw_error := None;
     openpty_error := None;
     popen_error := None;
     ticks := script;
     tcsetattr_error := None |}.

Definition keystroke (s : string) : Round :=
  {| read_list := [Stdin]; read_answer := Ok (bytes_of s);
     write_answer := Ok tt |}.

Definition output (s : string) : Round :=
  {| read_list := [Master]; read_answer := Ok (bytes_of s);
     write_answer := Ok tt |}.

(** Both descriptors ready at once. *)
Definition both_ready (typed : string) : Round :=
  {| read_list := [Stdin; Master]; read_answer := Ok (bytes_of typed);
     write_answer := Ok tt |}.


Definition at_login : World Tty.termios :=
  {| tty := Tty.cooked; trace := [] |}.

End Scenario.

(** ** [wiz/spawn.py]: [execute] *)

Module Execute.

Inductive exn :=
| ValueError            (* shlex.split: no closing quotation *)
| OSError               (* Popen *)
| UnicodeEncodeError.   (* print: the text does not fit sys.stdout *)

(** What [str.rstrip()] strips: space, tab, line feed, vertical tab,
    form feed, carriage return. *)
Definition is_space (c : ascii) : bool :=
  let n := nat_of_ascii c in
  (n =? 32)%nat || ((9 <=? n)%nat && (n <=? 13)%nat).

(** [s.rstrip()] *)
Fixpoint rstrip (s : string) : string :=
  match s with
  | EmptyString => EmptyString
  | String c s' =>
      match rstrip s' with
      | EmptyString => if is_space c then EmptyString else String c EmptyString
      | kept => String c kept
      end
  end.

(** Carriage return and line feed, and the line feed alone. *)
Definition CRLF : string :=
  String "013"%char (String "010"%char EmptyString).

Definition LF : string := String "010"%char EmptyString.

Inductive Call :=
| Popen (args : list string) (environment : gmap string string)
| Poll (answer : option Z)              (* process.poll() *)
| Readline (answer : string)            (* process.stdout.readline() *)
| Print (text : string) (end_ : string).
    (* print(text, end=end_) *)

(** Everything the operating system answers during one call. *)
Record Script := {
  shlex_split : string -> option (list string);   (* None: ValueError *)
  popen_error : option exn;
  polls : list (option Z);       (* the answers of poll(), in turn *)
  lines : list string;           (* the answers of readline(), likewise *)
  print_error : string -> option exn
}.

Inductive Exit :=
| Returned
| Raised (e : exn)
| Running.              (* blocked in readline(), or still polling *)

(** How the [for line in lines_iterator] loop ends. *)
Inductive ForEnd :=
| Exhausted             (* readline() answered the sentinel *)
| Stopped (exit : Exit).

(** [for line in lines_iterator: print(line.rstrip().decode("latin"),
    end="\r\n")] over [iter(process.stdout.readline, b"")]: the iterator
    calls [readline] and stops at the empty answer.  Decoding Latin-1 keeps
    every character as it is. *)
Fixpoint for_lines (print_error : string -> option exn)
    (answers : list string) (trace : list Call) : ForEnd * list Call :=
  match answers with
  | [] => (Stopped Running, trace)
  | line :: answers' =>
      if (line =? "")%string then (Exhausted, trace ++ [Readline line])
      else
        let _line := rstrip line in
        let trace := trace ++ [Readline line; Print _line CRLF] in
        match print_error _line with
        | Some e => (Stopped (Raised e), trace)
        | None => for_lines print_error answers' trace
        end
  end.

(** [while process.poll() is None: for line in lines_iterator: ...].  The
    iterator is [Some answers] while it can still call [readline] and [None]
    once it met the sentinel: from then on the [for] loop has no body to
    run. *)
Fixpoint while_running (print_error : string -> option exn)
    (polls : list (option Z)) (iterator : option (list string))
    (trace : list Call) : Exit * list Call :=
  match polls with
  | [] => (Running, trace)
  | Some code :: _ => (Returned, trace ++ [Poll (Some code)])
  | None :: polls' =>
      let trace := trace ++ [Poll None] in
      match iterator with
      | None => while_running print_error polls' None trace
      | Some answers =>
          match for_lines print_error answers trace with
          | (Exhausted, trace) => while_running print_error polls' None trace
          | (Stopped exit, trace) => (exit, trace)
          end
      end
  end.

Definition execute (command : string) (environment : gmap string string)
    (script : Script) : Exit * list Call :=
  match shlex_split script command with
  | None => (Raised ValueError, [])
  | Some args =>
      match popen_error script with
      | Some e => (Raised e, [Popen args environment])
      | None =>
          while_running (print_error script) (polls script)
            (Some (lines script)) [Popen args environment]
      end
  end.

(** The texts handed to [print], the answers of [readline], and what
    reaches standard output. *)
Definition printed (trace : list Call) : list string :=
  flat_map (fun c => match c with Print text _ => [text] | _ => [] end) trace.

Definition read (trace : list Call) : list string :=
  flat_map (fun c => match c with Readline a => [a] | _ => [] end) trace.

Definition echoed (trace : list Call) : string :=
  fold_right String.append ""
    (flat_map (fun c => match c with
                        | Print text end_ => [text +:+ end_]
                        | _ => []
                        end) trace).

(** The last character of [s], if any, is whitespace. *)
Fixpoint ends_with_space (s : string) : bool :=
  match s with
  | EmptyString => false
  | String c EmptyString => is_space c
  | String _ s' => ends_with_space s'
  end.

Fixpoint all_space (s : string) : bool :=
  match s with
  | EmptyString => true
  | String c s' => is_space c && all_space s'
  end.

End Execute.

(** ** [wiz/system.py] *)

Module System.

Inductive Platform :=
| LinuxPlatform
| MacOsPlatform
| WindowsPlatform.

Inductive exn :=
| UnsupportedPlatform (name : string).

(** What the interpreter and the [platform] module report. *)
Record Host := {
  platform_system : string;            (* platform.system() *)
  platform_machine : string;           (* platform.machine() *)
  linux_distribution : string * string * string;
      (* platform.linux_distribution(full_distribution_name=False) *)
  mac_ver : string;                    (* platform.mac_ver()[0] *)
  win32_ver : string;                  (* platform.win32_ver()[1] *)
  os_name : string;                    (* os.name *)
  version_info : Z * Z;                (* sys.version_info[:2] *)
  environ : gmap string string         (* os.environ *)
}.

(** [str.lower()] on a byte string: the letters A to Z only. *)
Definition lower_char (c : ascii) : ascii :=
  let n := nat_of_ascii c in
  if (65 <=? n)%nat && (n <=? 90)%nat then ascii_of_nat (n + 32) else c.

Fixpoint lower (s : string) : string :=
  match s with
  | EmptyString => EmptyString
  | String c s' => String (lower_char c) (lower s')
  end.

Definition query_platform (host : Host) : Platform + exn :=
  let name := lower (platform_system host) in
  if (name =? "linux")%string then inl LinuxPlatform
  else if (name =? "darwin")%string then inl MacOsPlatform
  else if (name =? "windows")%string then inl WindowsPlatform
  else inr (UnsupportedPlatform name).

Definition name (p : Platform) : string :=
  match p with
  | LinuxPlatform => "linux"
  | MacOsPlatform => "mac"
  | WindowsPlatform => "windows"
  end.

(** [a < b] on pairs, as Python compares tuples. *)
Definition tuple_lt (a b : Z * Z) : bool :=
  ((fst a <? fst b) || ((fst a =? fst b) && (snd a <? snd b)))%Z.

Definition arch (p : Platform) (host : Host) : string :=
  match p with
  | LinuxPlatform | MacOsPlatform => platform_machine host
  | WindowsPlatform =>
      if (os_name host =? "nt")%string && tuple_lt (version_info host) (2, 7)%Z
      then
        match
          match environ host !! "PROCESSOR_ARCHITEW6432" with
          | Some a => Some a
          | None => environ host !! "PROCESSOR_ARCHITECTURE"
          end
        with
        | Some arch => arch
        | None => platform_machine host
        end
      else platform_machine host
  end.

(** ["{}=={}".format(a, b)] *)
Definition format_version (a b : string) : string := a +:+ "==" +:+ b.

Definition os_version (p : Platform) (host : Host) : string :=
  match p with
  | LinuxPlatform =>
      let '(distribution, version, _) := linux_distribution host in
      format_version distribution version
  | MacOsPlatform => format_version (name MacOsPlatform) (mac_ver host)
  | WindowsPlatform => format_version (name WindowsPlatform) (win32_ver host)
  end.

End System.

(** ** Readings of [execute] *)

(** A call [execute] may make: what it prints is stripped and ends the line
    with carriage return and line feed. *)
Definition tidy_print (c : Execute.Call) : Prop :=
  match c with
  | Execute.Print text end_ =>
      end_ = Execute.CRLF /\ Execute.ends_with_space text = false
  | _ => True
  end.

Definition nonempty (s : string) : bool := negb (s =? "")%string.

(** A poll that says the process has exited. *)
Definition exited (answer : option Z) : bool :=
  match answer with
  | Some _ => true
  | None => false
  end.

(** The polls [execute] gets through once nothing is left to read: up to
    the first that says the process has exited. *)
Fixpoint until_exit (polls : list (option Z)) : list (option Z) :=
  match polls with
  | [] => []
  | Some code :: _ => [Some code]
  | None :: polls' => None :: until_exit polls'
  end.

(** The calls that echo the lines [ls]. *)
Definition echo_calls (ls : list string) : list Execute.Call :=
  flat_map
    (fun l =>
       [Execute.Readline l; Execute.Print (Execute.rstrip l) Execute.CRLF])
    ls.

(** A process that prints two lines and exits with status 0 while
    [execute] is still polling. *)
Definition two_lines : Execute.Script :=
  {| Execute.shlex_split := fun _ => Some ["ls"; "-l"];
     Execute.popen_error := None;
     Execute.polls := [None; None; Some 0%Z];
     Execute.lines := ["total 0  " +:+ Execute.LF; "a.txt" +:+ Execute.LF; ""];
     Execute.print_error := fun _ => None |}.

(** The same process, gone before the first poll. *)
Definition already_gone : Execute.Script :=
  {| Execute.shlex_split := fun _ => Some ["ls"; "-l"];
     Execute.popen_error := None;
     Execute.polls := [Some 0%Z];
     Execute.lines := ["total 0  " +:+ Execute.LF; "a.txt" +:+ Execute.LF; ""];
     Execute.print_error := fun _ => None |}.

(** ** Readings of [query_platform] *)

(** What [platform.system()] says, in lower case, on the platforms
    [query_platform] knows. *)
Definition system_name (p : System.Platform) : string :=
  match p with
  | System.LinuxPlatform => "linux"
  | System.MacOsPlatform => "darwin"
  | System.WindowsPlatform => "windows"
  end.

Definition supported_systems : list string := ["linux"; "darwin"; "windows"].

(** Hosts for the examples: a Linux machine that spells its name in
    capitals, and a 32-bit Python 2.6 on 64-bit Windows. *)
Definition linux_host : System.Host :=
  {| System.platform_system := "Linux";
     System.platform_machine := "x86_64";
     System.linux_distribution := ("centos", "7.3.1611", "Core");
     System.mac_ver := "";
     System.win32_ver := "";
     System.os_name := "posix";
     System.version_info := (2, 7)%Z;
     System.environ := ∅ |}.

Definition old_windows_host : System.Host :=
  {| System.platform_system := "Windows";
     System.platform_machine := "x86";
     System.linux_distribution := ("", "", "");
     System.mac_ver := "";
     System.win32_ver := "6.1.7601";
     System.os_name := "nt";
     System.version_info := (2, 6)%Z;
     System.environ :=
       <[ "PROCESSOR_ARCHITEW6432" := "AMD64" ]>
         {[ "PROCESSOR_ARCHITECTURE" := "x86" ]} |}.

(** ** Readings of the registry locator *)

Section LocatorReadings.

Import Registry.

(** [~/.wiz/registry] *)
Definition local_registry (env : Env) : string :=
  PosixPath.join (home env) [".wiz"; "registry"].

(** A registry of a level below the discovery root: under [/jobs/ads/],
    named [.wiz/registry], and not the registry of the root itself. *)
Definition level_registry (path : string) : Prop :=
  Py.startswith path "/jobs/ads/" = true /\
  Py.endswith path "/.wiz/registry" = true /\
  path <> "/jobs/ads/.wiz/registry".

(** An accessibility check on the registry of a level below the root. *)
Definition level_check (e : Event) : Prop :=
  match e with
  | IsAccessible path _ => level_registry path
  | _ => False
  end.

(** An export into a registry directory. *)
Definition registry_export (e : Event) : Prop :=
  match e with
  | ExportDefinition path _ _ _ => Py.endswith path ".wiz/registry" = true
  | _ => True
  end.

(** A world like [Scenario.world] in which nothing is a directory. *)
Definition no_directories : Env :=
  {| getcwd := "/";
     home := "/usr/people/me";
     wiz_server := "https://wiz.themill.com";
     is_accessible := fun _ _ => false;
     isdir := fun _ _ => false;
     access := fun _ _ => false;
     export_definition := fun _ => Scenario.serialize [];
     requests_get := fun _ _ =>
       Return (Scenario.response true 200 Scenario.registries_body);
     requests_post := fun _ _ _ _ => Return Scenario.created;
     get_username := fun _ => "jdoe";
     get_name := fun _ => Some "John Doe" |}.

(** A world whose vault answers the listing with [answer]. *)
Definition vault_listing (answer : Response) : Env :=
  {| getcwd := "/";
     home := "/usr/people/me";
     wiz_server := "https://wiz.themill.com";
     is_accessible := fun _ _ => true;
     isdir := fun _ _ => true;
     access := fun _ _ => true;
     export_definition := fun _ => Scenario.serialize [];
     requests_get := fun _ _ => Return answer;
     requests_post := fun _ _ _ _ => Return Scenario.created;
     get_username := fun _ => "jdoe";
     get_name := fun _ => None |}.

End LocatorReadings.

(** ** Vault answers for the examples *)

Section VaultAnswers.

Import Registry.

(** The registries the vault of the unit tests lists, and the [data]
    member that holds them. *)
Definition listed_registries : json :=
  JObject
    {[ "registry-id" :=
         JObject
           (<[ "identifier" := JString "registry-id" ]>
              {[ "description" := JString "This is a registry" ]}) ]}.

Definition listing_data : json :=
  JObject {[ "content" := listed_registries ]}.

(** A refusal with the error shape of the vault, and one whose [error]
    member is a text instead of an object. *)
Definition refusal : Response :=
  Scenario.response false 500
    (JObject {[ "error" := JObject {[ "message" := JString "Oh no" ]} ]}).

Definition odd_refusal : Response :=
  Scenario.response false 500 (JObject {[ "error" := JString "Oh no" ]}).

Definition is_post (e : Event) : bool :=
  match e with
  | Post _ _ _ _ => true
  | _ => false
  end.

End VaultAnswers.

(** ** Readings of a [shell] trace *)

Section TraceReadings.

Import Spawn.

Context {Mode : Type}.

(** The calls [shell] makes outside the body of its loop. *)
Definition setup_call (c : Call Mode) : bool :=
  match c with
  | Read _ _ | Write _ _ => false
  | _ => true
  end.

(** [termios.tcsetattr] *)
Definition restores (e : Entry Mode) : bool :=
  match e with
  | Once (Tcsetattr _) => true
  | _ => false
  end.

(** What a call hands to [os.write] for the descriptor [fd]. *)
Definition payload (fd : Fd) (c : Call Mode) : list byte :=
  match c with
  | Write fd' message => if Fd_eqb fd fd' then message else []
  | _ => []
  end.

Definition is_read (fd : Fd) (c : Call Mode) : bool :=
  match c with
  | Read fd' _ => Fd_eqb fd fd'
  | _ => false
  end.

(** The bytes an entry of the trace hands to [os.write] for [fd]. *)
Definition written (fd : Fd) (e : Entry Mode) : list byte :=
  match e with
  | Once c => payload fd c
  | Turn _ calls => List.concat (map (payload fd) calls)
  end.

(** The bytes [os.read] returned from [fd] in an entry of the trace: the
    answer of the round, when the iteration did read [fd]. *)
Definition read_from (fd : Fd) (e : Entry Mode) : list byte :=
  match e with
  | Once _ => []
  | Turn r calls =>
      if existsb (is_read fd) calls then
        match read_answer r with
        | Ok message => message
        | Fails _ => []
        end
      else []
  end.

End TraceReadings.

(** An operating system on which no executable is found. *)
Definition nothing_installed (script : list Spawn.Tick) : Spawn.Script :=
  {| Spawn.find_executable := fun _ => None;
     Spawn.tcgetattr_error := None;
     Spawn.setraw_error := None;
     Spawn.openpty_error := None;
     Spawn.popen_error := None;
     Spawn.ticks := script;
     Spawn.tcsetattr_error := None |}.

(** * Facts *)

(** ** Strings and paths *)

Lemma append_nil_l (s : string) : "" +:+ s = s.
Proof. reflexivity. Qed.

Lemma append_cons (c : ascii) (a b : string) :
  String c a +:+ b = String c (a +:+ b).
Proof. reflexivity. Qed.

Ltac push_append := rewrite ?append_cons, ?append_nil_l.
Ltac push_append_in H := rewrite ?append_cons, ?append_nil_l in H.

Lemma append_nil_r (s : string) : s +:+ "" = s.
Proof.
  induction s as [|c s IH]; push_append; [reflexivity | now rewrite IH].
Qed.

Lemma append_assoc (a b c : string) : (a +:+ b) +:+ c = a +:+ (b +:+ c).
Proof.
  induction a as [|x a IH]; push_append; [reflexivity | now rewrite IH].
Qed.

(** A name without separator in front of [s] joins the first piece of
    [s]. *)
Lemma split_app_no_sep (f s h : string) (t : list string) :
  no_sep f = true ->
  Py.split PosixPath.sep s = h :: t ->
  Py.split PosixPath.sep (f +:+ s) = (f +:+ h) :: t.
Proof.
  intros Hf Hs. induction f as [|c f IH]; push_append; [exact Hs |].
  simpl in Hf. apply andb_prop in Hf as [Hc Hf].
  apply negb_true_iff in Hc. simpl. rewrite Hc, (IH Hf). reflexivity.
Qed.

Lemma folder_name_no_sep (f : string) :
  folder_name f = true -> no_sep f = true.
Proof. unfold folder_name. intros H. now apply andb_prop in H. Qed.

Lemma folder_name_nonempty (f : string) : folder_name f = true -> f <> "".
Proof. intros H ->. discriminate H. Qed.

Lemma split_below (folders : list string) :
  Forall (fun f => folder_name f = true) folders ->
  Py.split PosixPath.sep (below folders) = "" :: folders.
Proof.
  induction 1 as [|f folders Hf _ IH]; [reflexivity |].
  simpl below. push_append. simpl.
  rewrite (split_app_no_sep f _ "" folders);
    [now rewrite append_nil_r | now apply folder_name_no_sep | exact IH].
Qed.

(** Whether a string ends with the separator is decided by its last
    piece. *)
Lemma endswith_sep_app (a b : string) :
  b <> "" -> Py.endswith (a +:+ b) "/" = Py.endswith b "/".
Proof.
  intros Hb. induction a as [|c a IH]; push_append; [reflexivity |].
  simpl. rewrite IH. destruct (a +:+ b) as [|d r] eqn:E.
  - destruct a; [contradiction | discriminate].
  - now destruct (Ascii.eqb c "/").
Qed.

Lemma endswith_sep_no_sep (f : string) :
  no_sep f = true -> Py.endswith f "/" = false.
Proof.
  induction f as [|c f IH]; simpl; [reflexivity |].
  intros H. apply andb_prop in H as [Hc Hf]. rewrite (IH Hf).
  apply negb_true_iff in Hc. unfold PosixPath.sep in Hc.
  now rewrite Hc.
Qed.

Lemma startswith_sep_folder (f : string) :
  folder_name f = true -> Py.startswith f "/" = false.
Proof.
  destruct f as [|c f]; [reflexivity |].
  unfold folder_name. simpl. intros H.
  apply andb_prop in H as [Hc _]. apply negb_true_iff in Hc.
  unfold PosixPath.sep in Hc. now rewrite Hc.
Qed.

(** A prefix that [os.path.join] extends with a separator. *)
Lemma join2_folder (prefix f : string) :
  prefix <> "" -> Py.endswith prefix "/" = false ->
  folder_name f = true ->
  PosixPath.join2 prefix f = prefix +:+ "/" +:+ f.
Proof.
  intros Hne Hend Hf. unfold PosixPath.join2.
  rewrite (startswith_sep_folder f Hf), Hend.
  apply String.eqb_neq in Hne. now rewrite Hne.
Qed.

Lemma extended_nonempty (prefix f : string) : prefix +:+ "/" +:+ f <> "".
Proof. destruct prefix; discriminate. Qed.

Lemma extended_endswith (prefix f : string) :
  folder_name f = true -> Py.endswith (prefix +:+ "/" +:+ f) "/" = false.
Proof.
  intros Hf. rewrite endswith_sep_app by discriminate.
  change ("/" +:+ f) with (String "/" f). simpl.
  rewrite (endswith_sep_no_sep f (folder_name_no_sep f Hf)).
  rewrite orb_false_r. apply String.eqb_neq.
  now apply folder_name_nonempty.
Qed.

(** [os.path.join(level, ".wiz", "registry")] *)
Lemma join_registry (level : string) :
  level <> "" -> Py.endswith level "/" = false ->
  PosixPath.join level [".wiz"; "registry"] = registry_of level.
Proof.
  intros Hne Hend. unfold PosixPath.join, registry_of. simpl.
  rewrite (join2_folder level ".wiz" Hne Hend eq_refl).
  rewrite join2_folder;
    [| apply extended_nonempty | now apply extended_endswith | reflexivity].
  now rewrite !append_assoc.
Qed.

(** ** [discover] *)

Import Registry.

Lemma answered_yes_cons (p : string) (paths : list string) (a : bool)
    (answers : list bool) :
  answered_yes (p :: paths) (a :: answers) =
  if a then p :: answered_yes paths answers else answered_yes paths answers.
Proof.
  unfold answered_yes. simpl. rewrite filter_cons. simpl.
  destruct a; case_decide; try reflexivity; congruence.
Qed.

(** The loop asks once per folder, about the registry of the level that
    folder opens, and yields the registries it was told are accessible. *)
Lemma discover_loop_levels (env : Env) (folders : list string) :
  Forall (fun f => folder_name f = true) folders ->
  forall (prefix : string) (log : list Event),
    prefix <> "" -> Py.endswith prefix "/" = false ->
    exists answers : list bool,
      List.length answers = List.length folders /\
      discover_loop folders prefix env log =
        (Return (answered_yes (registry_of <$> levels prefix folders) answers),
         log ++ zip_with IsAccessible
                  (registry_of <$> levels prefix folders) answers).
Proof.
  induction 1 as [|f folders Hf _ IH]; intros prefix log Hne Hend.
  - exists []. split; [reflexivity |].
    simpl. unfold ret. now rewrite app_nil_r.
  - simpl discover_loop.
    rewrite (join2_folder prefix f Hne Hend Hf).
    set (level := prefix +:+ "/" +:+ f).
    change (PosixPath.join2 (PosixPath.join2 level ".wiz") "registry")
      with (PosixPath.join level [".wiz"; "registry"]).
    rewrite join_registry by
      (apply extended_nonempty || now apply extended_endswith).
    unfold bind at 1. unfold is_accessible_, call.
    set (a := is_accessible env log (registry_of level)).
    destruct (IH level (log ++ [IsAccessible (registry_of level) a]))
      as (answers & Hlen & Hrun);
      [apply extended_nonempty | now apply extended_endswith |].
    unfold bind. rewrite Hrun. exists (a :: answers).
    split; [simpl; now rewrite Hlen |].
    simpl levels. rewrite fmap_cons, answered_yes_cons. fold level.
    unfold ret. simpl zip_with. rewrite <- app_assoc. simpl.
    now destruct a.
Qed.

Lemma join_root : PosixPath.join "/" ["jobs"; "ads"] = discovery_root.
Proof. reflexivity. Qed.

Lemma startswith_root (rest : string) :
  Py.startswith (discovery_root +:+ rest) discovery_root = true.
Proof. unfold discovery_root. push_append. reflexivity. Qed.

Lemma split_under_root (folders : list string) :
  Forall (fun f => folder_name f = true) folders ->
  drop 3 (Py.split PosixPath.sep (discovery_root +:+ below folders)) = folders.
Proof.
  intros Hf. unfold discovery_root. push_append. simpl.
  now rewrite (split_below folders Hf).
Qed.

Lemma root_open :
  discovery_root <> "" /\ Py.endswith discovery_root "/" = false.
Proof. split; [discriminate | reflexivity]. Qed.

(** Outside the string prefix [discover] returns at once. *)
Lemma discover_outside_prefix (env : Env) (log : list Event) (path : string) :
  Py.startswith (PosixPath.abspath (getcwd env) path) discovery_root = false ->
  discover path env log = (Return [], log).
Proof.
  intros H. unfold discover, bind, asks. rewrite join_root, H. reflexivity.
Qed.

(** A path made of the root and plain folder names is its own absolute
    form: every directory under the root is a start path of the kind the
    theorem on levels speaks about. *)

Lemma plain_name_folder (f : string) :
  plain_name f = true -> folder_name f = true.
Proof.
  unfold plain_name. intros H.
  apply andb_prop in H as [H _]. now apply andb_prop in H as [H _].
Qed.

Lemma normpath_step_plain (n : nat) (acc : list string) (f : string) :
  plain_name f = true -> PosixPath.normpath_step n acc f = acc ++ [f].
Proof.
  unfold plain_name, folder_name, PosixPath.normpath_step. intros H.
  apply andb_prop in H as [H Hdd]. apply andb_prop in H as [H Hd].
  apply andb_prop in H as [He _].
  apply negb_true_iff in He, Hd, Hdd. now rewrite He, Hd, Hdd.
Qed.

Lemma normpath_fold_plain (n : nat) (folders : list string) :
  Forall (fun f => plain_name f = true) folders ->
  forall acc,
    fold_left (PosixPath.normpath_step n) folders acc = acc ++ folders.
Proof.
  induction 1 as [|f folders Hf _ IH]; intros acc; simpl.
  - now rewrite app_nil_r.
  - rewrite (normpath_step_plain n acc f Hf), IH, <- app_assoc. reflexivity.
Qed.

Lemma join_below (x : string) (folders : list string) :
  Py.join "/" (x :: folders) = x +:+ below folders.
Proof.
  revert x. induction folders as [|f folders IH]; intros x.
  - simpl. now rewrite append_nil_r.
  - change (Py.join "/" (x :: f :: folders))
      with (x +:+ "/" +:+ Py.join "/" (f :: folders)).
    now rewrite IH.
Qed.

Lemma abspath_under_root (cwd : string) (folders : list string) :
  Forall (fun f => plain_name f = true) folders ->
  PosixPath.abspath cwd (discovery_root +:+ below folders) =
  discovery_root +:+ below folders.
Proof.
  intros Hp.
  assert (Hf : Forall (fun f => folder_name f = true) folders)
    by (eapply Forall_impl; [exact Hp | exact plain_name_folder]).
  unfold PosixPath.abspath, PosixPath.isabs, PosixPath.normpath.
  unfold discovery_root. push_append. simpl.
  rewrite (split_below folders Hf). simpl.
  replace (PosixPath.normpath_step 1
             (PosixPath.normpath_step 1 (PosixPath.normpath_step 1 [] "")
                "jobs") "ads")
    with ["jobs"; "ads"] by reflexivity.
  rewrite (normpath_fold_plain 1 folders Hp).
  change (["jobs"; "ads"] ++ folders) with ("jobs" :: "ads" :: folders).
  change (Py.join "/" ("jobs" :: "ads" :: folders))
    with ("jobs" +:+ "/" +:+ Py.join "/" ("ads" :: folders)).
  rewrite join_below. push_append. reflexivity.
Qed.

(** *** What [os.path.normpath] returns *)

Lemma startswith_app_inv (s prefix : string) :
  Py.startswith s prefix = true -> exists rest, s = prefix +:+ rest.
Proof.
  revert s. induction prefix as [|p prefix IH]; intros s H.
  - exists s. reflexivity.
  - destruct s as [|c s]; [discriminate |]. simpl in H.
    apply andb_prop in H as [Hc Hs]. apply Ascii.eqb_eq in Hc. subst c.
    destruct (IH s Hs) as [rest ->]. exists rest. reflexivity.
Qed.

Lemma split_pieces_no_sep (s : string) :
  Forall (fun f => no_sep f = true) (Py.split PosixPath.sep s).
Proof.
  induction s as [|c s IH]; simpl; [repeat constructor |].
  destruct (Ascii.eqb c PosixPath.sep) eqn:Hc; [now constructor |].
  destruct (Py.split PosixPath.sep s) as [|h t];
    [repeat constructor; simpl; now rewrite Hc |].
  inversion IH; subst. constructor; [| assumption].
  simpl. now rewrite Hc.
Qed.

Lemma split_sep_cons (s : string) :
  Py.split PosixPath.sep ("/" +:+ s) = "" :: Py.split PosixPath.sep s.
Proof. reflexivity. Qed.

Lemma split_join (comps : list string) :
  comps <> [] ->
  Forall (fun f => no_sep f = true) comps ->
  Py.split PosixPath.sep (Py.join "/" comps) = comps.
Proof.
  intros Hne H. induction H as [|x comps Hx Hcomps IH]; [contradiction |].
  destruct comps as [|y comps].
  - simpl. rewrite <- (append_nil_r x) at 1.
    rewrite (split_app_no_sep x "" "" []); [| assumption | reflexivity].
    now rewrite append_nil_r.
  - change (Py.join "/" (x :: y :: comps))
      with (x +:+ "/" +:+ Py.join "/" (y :: comps)).
    rewrite (split_app_no_sep x _ "" (y :: comps)); [| assumption |].
    + now rewrite append_nil_r.
    + rewrite split_sep_cons. now rewrite IH.
Qed.

Lemma Forall_removelast {A : Type} (P : A -> Prop) (l : list A) :
  Forall P l -> Forall P (removelast l).
Proof.
  induction 1 as [|x l Hx Hl IH]; simpl; [constructor |].
  destruct l; [constructor | now constructor].
Qed.

(** The components [normpath] keeps are folder names. *)
Lemma normpath_step_names (n : nat) (acc : list string) (comp : string) :
  Forall (fun f => folder_name f = true) acc ->
  no_sep comp = true ->
  Forall (fun f => folder_name f = true) (PosixPath.normpath_step n acc comp).
Proof.
  intros Hacc Hcomp. unfold PosixPath.normpath_step.
  destruct (comp =? "")%string eqn:He; [assumption |].
  destruct (comp =? ".")%string; [assumption |]. cbn [orb].
  match goal with |- context [if ?c then _ else _] => destruct c end.
  - apply Forall_app. split; [assumption |].
    repeat constructor. unfold folder_name. now rewrite He, Hcomp.
  - now apply Forall_removelast.
Qed.

Lemma normpath_fold_names (n : nat) (comps : list string) :
  Forall (fun f => no_sep f = true) comps ->
  forall acc,
    Forall (fun f => folder_name f = true) acc ->
    Forall (fun f => folder_name f = true)
      (fold_left (PosixPath.normpath_step n) comps acc).
Proof.
  induction 1 as [|c comps Hc _ IH]; intros acc Hacc; simpl; [assumption |].
  apply IH. now apply normpath_step_names.
Qed.

Lemma names_no_sep (comps : list string) :
  Forall (fun f => folder_name f = true) comps ->
  Forall (fun f => no_sep f = true) comps.
Proof.
  intros H. eapply Forall_impl; [exact H | exact folder_name_no_sep].
Qed.

Lemma join_names_relative (comps : list string) :
  Forall (fun f => folder_name f = true) comps ->
  Py.startswith (Py.join "/" comps) "/" = false.
Proof.
  intros H. destruct H as [|x comps Hx _]; [reflexivity |].
  rewrite join_below.
  destruct x as [|c x]; [discriminate Hx |].
  unfold folder_name in Hx. simpl in Hx.
  apply andb_prop in Hx as [Hc _]. apply negb_true_iff in Hc.
  push_append. simpl. unfold PosixPath.sep in Hc. now rewrite Hc.
Qed.

(** A normalized path that continues the root is the root followed by
    folder names. *)
Lemma normpath_below_root (q : string) :
  below_root (PosixPath.normpath q) ->
  exists folders, under_root (PosixPath.normpath q) folders.
Proof.
  unfold PosixPath.normpath.
  destruct (q =? "")%string; [intros [H | H]; discriminate H |].
  set (n := if Py.startswith q "/" then _ else _).
  set (comps := fold_left (PosixPath.normpath_step n)
                  (Py.split PosixPath.sep q) []).
  assert (Hnames : Forall (fun f => folder_name f = true) comps)
    by (apply normpath_fold_names;
        [apply split_pieces_no_sep | constructor]).
  set (s := match n with
            | 0%nat => Py.join "/" comps
            | 1%nat => "/" +:+ Py.join "/" comps
            | _ => "//" +:+ Py.join "/" comps
            end).
  intros Hbelow.
  assert (Hstart : exists rest,
             (if (s =? "")%string then "." else s) =
               discovery_root +:+ rest /\
             (rest = "" \/ exists r, rest = "/" +:+ r)).
  { destruct Hbelow as [-> | H].
    - exists "". split; [now rewrite append_nil_r | now left].
    - apply startswith_app_inv in H as [r ->].
      exists ("/" +:+ r). split; [now rewrite append_assoc | eauto]. }
  destruct Hstart as (rest & Hs & Hrest).
  destruct (s =? "")%string eqn:Hempty;
    [unfold discovery_root in Hs; push_append_in Hs; discriminate Hs |].
  rewrite Hs.
  assert (Hjoin : Py.join "/" comps = "jobs/ads" +:+ rest).
  { unfold s in Hs. destruct n as [|[|n']].
    - pose proof (join_names_relative comps Hnames) as Hrel.
      rewrite Hs in Hrel. discriminate Hrel.
    - unfold discovery_root in Hs. push_append_in Hs.
      inversion Hs as [Hj]. push_append. exact Hj.
    - unfold discovery_root in Hs. push_append_in Hs. discriminate Hs. }
  assert (Hsplit : comps = Py.split PosixPath.sep ("jobs/ads" +:+ rest)).
  { rewrite <- Hjoin. symmetry. apply split_join; [| now apply names_no_sep].
    intros ->. discriminate Hjoin. }
  assert (Hshape : exists folders, comps = "jobs" :: "ads" :: folders).
  { rewrite Hsplit. destruct Hrest as [-> | [r ->]].
    - exists []. reflexivity.
    - exists (Py.split PosixPath.sep r). push_append. reflexivity. }
  destruct Hshape as [folders Hcomps].
  exists folders. split.
  - rewrite Hcomps in Hnames. now inversion Hnames as [|? ? _ [|? ? _ H]].
  - rewrite Hcomps, join_below in Hjoin. simpl below in Hjoin.
    push_append_in Hjoin. inversion Hjoin. reflexivity.
Qed.

(** The folders below the root are fixed by the path. *)
Lemma under_root_unique (abs : string) (folders folders' : list string) :
  under_root abs folders -> under_root abs folders' -> folders = folders'.
Proof.
  intros [Hf ->] [Hf' H]. unfold discovery_root in H. push_append_in H.
  inversion H as [Hbelow].
  pose proof (split_below folders Hf) as Hs.
  rewrite Hbelow, (split_below folders' Hf') in Hs. now inversion Hs.
Qed.

(** C7. For a start path whose absolute form lies under [/jobs/ads], say
    [/jobs/ads/f1/.../fN], running [discover] to its end asks the
    accessibility checker exactly N times, once per level and about
    [<level>/.wiz/registry], from the level next to the root down to the
    start path, and yields the registries it was told are accessible, in
    that order. *)
Theorem discover_checks_every_level (env : Env) (log : list Event)
    (path : string) :
  let abs := PosixPath.abspath (getcwd env) path in
  below_root abs ->
  exists (folders : list string) (answers : list bool),
    under_root abs folders /\
    List.length answers = List.length folders /\
    let registries := registry_of <$> levels discovery_root folders in
    discover path env log =
      (Return (answered_yes registries answers),
       log ++ zip_with IsAccessible registries answers).
Proof.
  intros abs Hbelow.
  destruct (normpath_below_root _ Hbelow) as [folders Hunder].
  fold (PosixPath.abspath (getcwd env) path) in Hunder. fold abs in Hunder.
  pose proof Hunder as [Hf Habs].
  destruct root_open as [Hne Hend].
  destruct (discover_loop_levels env folders Hf discovery_root log Hne Hend)
    as (answers & Hlen & Hrun).
  exists folders, answers. split; [exact Hunder |]. split; [exact Hlen |].
  cbv zeta. unfold discover, bind, asks. fold abs.
  rewrite Habs, join_root, startswith_root, (split_under_root folders Hf).
  exact Hrun.
Qed.

Lemma discover_checks_every_level_witness :
  let env := Scenario.answers_in_turn [false; true; false; true] in
  let path := "/jobs/ads/project/identity/shot/animation" in
  below_root (PosixPath.abspath (getcwd env) path) /\
  exists (folders : list string) (answers : list bool),
    under_root (PosixPath.abspath (getcwd env) path) folders /\
    List.length answers = List.length folders /\
    let registries := registry_of <$> levels discovery_root folders in
    discover path env [] =
      (Return (answered_yes registries answers),
       [] ++ zip_with IsAccessible registries answers).
Proof.
  intros env path.
  assert (H : below_root (PosixPath.abspath (getcwd env) path))
    by (right; reflexivity).
  split; [exact H |].
  exact (discover_checks_every_level env [] path H).
Defined.

(** [test_discover]: four levels, answers [False, True, False, True]. *)
Example discover_test :
  discover "/jobs/ads/project/identity/shot/animation"
    (Scenario.answers_in_turn [false; true; false; true]) [] =
  (Return
     ["/jobs/ads/project/identity/.wiz/registry";
      "/jobs/ads/project/identity/shot/animation/.wiz/registry"],
   [IsAccessible "/jobs/ads/project/.wiz/registry" false;
    IsAccessible "/jobs/ads/project/identity/.wiz/registry" true;
    IsAccessible "/jobs/ads/project/identity/shot/.wiz/registry" false;
    IsAccessible "/jobs/ads/project/identity/shot/animation/.wiz/registry"
      true]).
Proof. reflexivity. Qed.

(** C6. [/jobs/adsx/project] is not under [/jobs/ads], yet its text starts
    with the text of the root: [discover] goes on, asks about
    [/jobs/ads/project/.wiz/registry] and yields it. *)
Theorem discover_beside_root_is_searched :
  let env := Scenario.world "/" (fun _ => true) [] Scenario.created in
  let path := "/jobs/adsx/project" in
  PosixPath.abspath (getcwd env) path = path /\
  ~ below_root path /\
  discover path env [] =
    (Return ["/jobs/ads/project/.wiz/registry"],
     [IsAccessible "/jobs/ads/project/.wiz/registry" true]).
Proof.
  intros env path. split; [reflexivity |]. split; [ | reflexivity ].
  intros [H | H]; discriminate H.
Qed.

(** ** [fetch] *)

Lemma fetch_paths_answers (env : Env) (paths : list string) :
  forall (registries : list string) (log : list Event),
    exists answers : list bool,
      List.length answers = List.length paths /\
      fetch_paths paths registries env log =
        (Return (registries ++ answered_yes paths answers),
         log ++ zip_with IsAccessible paths answers).
Proof.
  induction paths as [|path paths IH]; intros registries log.
  - exists []. split; [reflexivity |].
    simpl. unfold ret. now rewrite !app_nil_r.
  - simpl fetch_paths. unfold bind, is_accessible_, call.
    destruct (is_accessible env log path) eqn:Ha; simpl.
    + destruct (IH (registries ++ [path]) (log ++ [IsAccessible path true]))
        as (answers & Hlen & ->).
      exists (true :: answers). split; [simpl; now rewrite Hlen |].
      rewrite answered_yes_cons. simpl zip_with.
      now rewrite <- !app_assoc.
    + destruct (IH registries (log ++ [IsAccessible path false]))
        as (answers & Hlen & ->).
      exists (false :: answers). split; [simpl; now rewrite Hlen |].
      rewrite answered_yes_cons. simpl zip_with.
      now rewrite <- !app_assoc.
Qed.

Lemma discover_loop_returns (env : Env) (folders : list string) :
  forall (prefix : string) (log : list Event),
    exists yielded log',
      discover_loop folders prefix env log = (Return yielded, log').
Proof.
  induction folders as [|f folders IH]; intros prefix log; simpl.
  - unfold ret. eauto.
  - unfold bind at 1. unfold is_accessible_, call. unfold bind.
    match goal with
    | |- context [discover_loop folders ?p env ?l] =>
        destruct (IH p l) as (yielded & log' & ->)
    end.
    unfold ret. eauto.
Qed.


Lemma append_nonempty (a b : string) : b <> "" -> a +:+ b <> "".
Proof. intros Hb. destruct a; [exact Hb | discriminate]. Qed.




(** C8. An accessible relative path comes back as it was given, not
    resolved against the working directory. *)
Theorem fetch_keeps_relative_path :
  let env := Scenario.world "/home/me" (fun _ => true) [] Scenario.created in
  let paths := ["/path/to/registry1"; "path/to/registry2"] in
  fst (fetch paths false false env []) =
    Return ["/path/to/registry1"; "path/to/registry2"] /\
  PosixPath.join (getcwd env) ["path/to/registry2"] =
    "/home/me/path/to/registry2" /\
  fst (fetch paths false false env []) <>
    Return ["/path/to/registry1";
            PosixPath.join (getcwd env) ["path/to/registry2"]].
Proof.
  intros env paths. split; [reflexivity |]. split; [reflexivity |].
  intros H. vm_compute in H. discriminate H.
Qed.

(** ** [install_to_path] *)

Lemma registry_directory_eq (cwd root : string) :
  (if negb (Py.endswith (PosixPath.abspath cwd root) ".wiz/registry")
   then PosixPath.join (PosixPath.abspath cwd root) [".wiz"; "registry"]
   else PosixPath.abspath cwd root) = registry_directory cwd root.
Proof. unfold registry_directory. now rewrite Bool.if_negb. Qed.

(** Every call [install_to_path] makes, for any world: one directory test,
    then at most one export of the one definition it was given, into the
    registry directory of the root, then one report when the export went
    through.  It never asks what the registry holds and never removes a
    file. *)
Lemma install_to_path_trace (env : Env) (log : list Event)
    (definition : WizDefinition) (root : string) (overwrite : bool) :
  let target := registry_directory (getcwd env) root in
  let is_dir := isdir env log root in
  let answer :=
    export_definition env (log ++ [IsDir root true]) target definition
      overwrite in
  snd (install_to_path definition root overwrite env log) =
    log ++ IsDir root is_dir ::
      (if is_dir then
         ExportDefinition target definition overwrite answer ::
           match answer with
           | Return _ =>
               [Info (Installed (identifier definition) (version definition)
                                target)]
           | Raise _ => []
           end
       else []).
Proof.
  cbv zeta. unfold install_to_path, bind, os_path_isdir, call.
  destruct (isdir env log root);
    [change (negb true) with false | reflexivity]; cbv beta iota.
  unfold asks, try_except, wiz_export_definition, call_outcome.
  cbv beta iota. rewrite !registry_directory_eq.
  destruct (export_definition env (log ++ [IsDir root true])
              (registry_directory (getcwd env) root) definition overwrite)
    as [[]|e].
  - unfold logger_info. cbn [snd]. now rewrite <- !app_assoc.
  - destruct e; unfold raise; cbn [snd]; now rewrite <- !app_assoc.
Qed.

(** X15. Whatever it is given and whatever the registry holds,
    [install_to_path] never calls [os.remove]: with [overwrite] on, an
    existing file is left to [wiz.export_definition]. *)
Lemma install_to_path_never_removes (env : Env) (log : list Event)
    (definition : WizDefinition) (root : string) (overwrite : bool) :
  exists calls,
    snd (install_to_path definition root overwrite env log) = log ++ calls /\
    forall path, ~ In (Remove path) calls.
Proof.
  eexists. split; [apply install_to_path_trace |].
  intros path. destruct (isdir env log root).
  - destruct (export_definition _ _ _ _ _);
      intros H; repeat destruct H as [H | H]; discriminate || contradiction.
  - intros [H | []]. discriminate.
Qed.

(** A refused export is reported as [DefinitionExists], whatever the file
    in the way holds. *)
Lemma install_to_path_file_exists (env : Env) (log : list Event)
    (definition : WizDefinition) (root : string) (overwrite : bool) :
  isdir env log root = true ->
  export_definition env (log ++ [IsDir root true])
    (registry_directory (getcwd env) root) definition overwrite =
    Raise FileExists ->
  fst (install_to_path definition root overwrite env log) =
    Raise (DefinitionExists
             (AlreadyExists (identifier definition) (version definition))).
Proof.
  intros Hd He.
  unfold install_to_path, bind, os_path_isdir, call. rewrite Hd.
  change (negb true) with false. cbv beta iota.
  unfold asks, try_except, wiz_export_definition, call_outcome.
  cbv beta iota. rewrite !registry_directory_eq. now rewrite He.
Qed.

(** C2. One definition that differs from the copy the registry holds,
    [overwrite] off: the export is attempted and refused, and what is raised
    is [DefinitionExists] for [baz] 2.5.1, not [DefinitionsExist] with a
    count. *)
Theorem install_to_path_conflict :
  let env :=
    Scenario.world "/" (fun _ => true) [Scenario.baz_described]
      Scenario.created in
  encode Scenario.baz <> encode Scenario.baz_described /\
  install_to_path Scenario.baz "/tmp/root" false env [] =
    (Raise (DefinitionExists (AlreadyExists "baz" (Some "2.5.1"))),
     [IsDir "/tmp/root" true;
      ExportDefinition "/tmp/root/.wiz/registry" Scenario.baz false
        (Raise FileExists)]) /\
  fst (install_to_path Scenario.baz "/tmp/root" false env []) <>
    Raise (DefinitionsExist 1).
Proof.
  intros env. split; [discriminate |]. split; [reflexivity |].
  intros H. vm_compute in H. discriminate H.
Qed.

(** C4. One definition the registry already holds byte for byte,
    [overwrite] off: it is not passed over in silence, the export is
    attempted and refused and [DefinitionExists] is raised, not
    [InstallNoChanges].  With [overwrite] on it is written again. *)
Theorem install_to_path_identical :
  let env :=
    Scenario.world "/" (fun _ => true) [Scenario.bar] Scenario.created in
  install_to_path Scenario.bar "/tmp/root" false env [] =
    (Raise (DefinitionExists (AlreadyExists "bar" None)),
     [IsDir "/tmp/root" true;
      ExportDefinition "/tmp/root/.wiz/registry" Scenario.bar false
        (Raise FileExists)]) /\
  fst (install_to_path Scenario.bar "/tmp/root" false env []) <>
    Raise InstallNoChanges /\
  install_to_path Scenario.bar "/tmp/root" true env [] =
    (Return tt,
     [IsDir "/tmp/root" true;
      ExportDefinition "/tmp/root/.wiz/registry" Scenario.bar true
        (Return tt);
      Info (Installed "bar" None "/tmp/root/.wiz/registry")]).
Proof.
  intros env. split; [reflexivity |]. split; [| reflexivity].
  intros H. vm_compute in H. discriminate H.
Qed.

(** C5. The batch of [test_install_to_path_overwrite], one call per
    definition since a call takes one, [overwrite] on, the registry holding
    an identical [bar] and a differing [baz]: three exports, all into the
    registry directory of the root, the identical [bar] among them; three
    reports, none with a count; no file removed. *)
Theorem install_to_path_overwrite :
  let env :=
    Scenario.world "/" (fun _ => true)
      [Scenario.bar; Scenario.baz_described] Scenario.created in
  let registry := "/tmp/root/.wiz/registry" in
  let run :=
    (let* _ := install_to_path Scenario.foo "/tmp/root" true in
     let* _ := install_to_path Scenario.bar "/tmp/root" true in
     install_to_path Scenario.baz "/tmp/root" true) env [] in
  run =
    (Return tt,
     [IsDir "/tmp/root" true;
      ExportDefinition registry Scenario.foo true (Return tt);
      Info (Installed "foo" (Some "0.1.0") registry);
      IsDir "/tmp/root" true;
      ExportDefinition registry Scenario.bar true (Return tt);
      Info (Installed "bar" None registry);
      IsDir "/tmp/root" true;
      ExportDefinition registry Scenario.baz true (Return tt);
      Info (Installed "baz" (Some "2.5.1") registry)]) /\
  encode Scenario.baz <> encode Scenario.baz_described /\
  (forall path, ~ In (Remove path) (snd run)) /\
  List.length (List.filter is_export (snd run)) = 3%nat.
Proof.
  intros env registry run.
  assert (Hrun : run =
    (Return tt,
     [IsDir "/tmp/root" true;
      ExportDefinition registry Scenario.foo true (Return tt);
      Info (Installed "foo" (Some "0.1.0") registry);
      IsDir "/tmp/root" true;
      ExportDefinition registry Scenario.bar true (Return tt);
      Info (Installed "bar" None registry);
      IsDir "/tmp/root" true;
      ExportDefinition registry Scenario.baz true (Return tt);
      Info (Installed "baz" (Some "2.5.1") registry)]))
    by reflexivity.
  split; [exact Hrun |]. split; [discriminate |].
  rewrite Hrun. cbn [snd]. split.
  - intros path H. repeat destruct H as [H | H]; discriminate || contradiction.
  - reflexivity.
Qed.

(** ** [install_to_vcs] *)

Lemma error_message_run (response : Response) (env : Env) (log : list Event) :
  error_message response env log = (server_message response, log).
Proof.
  unfold error_message, server_message, bind, lift.
  destruct (json_body response) as [body|e]; [| reflexivity].
  now destruct (py_get body "error" (JObject ∅)).
Qed.

(** How the answer to the release is read: the [ok] flag first, then the
    one status 409, and [InstallError] for everything else. *)
Lemma release_outcome_reads (definition : WizDefinition)
    (registry_identifier : string) (response : Response) (env : Env)
    (log : list Event) :
  release_outcome definition registry_identifier response env log =
    if ok response then
      (Return tt,
       log ++ [Info (Installed (identifier definition) (version definition)
                               registry_identifier)])
    else if (status_code response =? 409)%Z then
      (Raise (DefinitionExists
                (AlreadyExists (identifier definition) (version definition))),
       log)
    else
      (install_error (CouldNotInstall registry_identifier) response, log).
Proof.
  unfold release_outcome, install_error.
  destruct (ok response); [reflexivity |].
  destruct (status_code response =? 409)%Z; [reflexivity |].
  unfold bind. rewrite error_message_run.
  now destruct (server_message response).
Qed.

(** No status makes [release_outcome] raise [InstallNoChanges]. *)
Lemma release_outcome_never_no_changes (definition : WizDefinition)
    (registry_identifier : string) (response : Response) (env : Env)
    (log : list Event) :
  json_body response <> Raise InstallNoChanges ->
  fst (release_outcome definition registry_identifier response env log) <>
    Raise InstallNoChanges.
Proof.
  intros Hbody. rewrite release_outcome_reads.
  destruct (ok response); [discriminate |].
  destruct (status_code response =? 409)%Z; [discriminate |].
  unfold install_error, server_message. cbn [fst].
  destruct (json_body response) as [body|e] eqn:Hb; [| congruence].
  destruct body; try discriminate. cbn [py_get].
  destruct (default _ _); discriminate.
Qed.

(** X17. The first call is the [GET]; when it is refused nothing else is
    called, and [InstallError] carries the message the vault gave. *)
Lemma install_to_vcs_get_refused (definition : WizDefinition)
    (registry_identifier : string) (overwrite : bool) (env : Env)
    (log : list Event) (response : Response) :
  requests_get env log (registries_url env) = Return response ->
  ok response = false ->
  install_to_vcs definition registry_identifier overwrite env log =
    (install_error RegistriesNotRetrieved response,
     log ++ [Get (registries_url env) (Return response)]).
Proof.
  intros Hget Hok. unfold install_to_vcs, bind at 1, asks.
  unfold bind at 1, requests_get_, call_outcome.
  fold (registries_url env). rewrite Hget, Hok.
  change (negb false) with true. cbv beta iota.
  unfold bind, install_error. rewrite error_message_run.
  now destruct (server_message response).
Qed.

(** X18. An identifier the vault does not list stops the call before any
    [POST], with [InstallError] naming the identifier. *)
Lemma install_to_vcs_unknown_registry (definition : WizDefinition)
    (registry_identifier : string) (overwrite : bool) (env : Env)
    (log : list Event) (response : Response) (body data listed : json) :
  requests_get env log (registries_url env) = Return response ->
  ok response = true ->
  json_body response = Return body ->
  py_get body "data" (JObject ∅) = Return data ->
  py_get data "content" (JObject ∅) = Return listed ->
  py_in registry_identifier listed = Return false ->
  install_to_vcs definition registry_identifier overwrite env log =
    (Raise (InstallError (NotARegistry registry_identifier)),
     log ++ [Get (registries_url env) (Return response)]).
Proof.
  intros Hget Hok Hbody Hdata Hlisted Hin.
  unfold install_to_vcs, bind at 1, asks.
  unfold bind at 1, requests_get_, call_outcome.
  fold (registries_url env). rewrite Hget, Hok.
  change (negb true) with false. cbv beta iota.
  unfold bind, lift. now rewrite Hbody, Hdata, Hlisted, Hin.
Qed.

(** With a listed identifier the [POST] goes to the release address of the
    registry, with [overwrite] as [json.dumps] writes it and a form of two
    fields, ["content"] and ["message"]. *)
Lemma install_to_vcs_posts (definition : WizDefinition)
    (registry_identifier : string) (overwrite : bool) (env : Env)
    (log : list Event) (response : Response) (body data listed : json) :
  requests_get env log (registries_url env) = Return response ->
  ok response = true ->
  json_body response = Return body ->
  py_get body "data" (JObject ∅) = Return data ->
  py_get data "content" (JObject ∅) = Return listed ->
  py_in registry_identifier listed = Return true ->
  exists username name answer rest,
    snd (install_to_vcs definition registry_identifier overwrite env log) =
      log ++
      [Get (registries_url env) (Return response);
       GetUsername username;
       GetName name;
       Post (release_url env registry_identifier)
         {[ "overwrite" := json_dumps_bool overwrite ]}
         (release_form definition username name) answer] ++ rest.
Proof.
  intros Hget Hok Hbody Hdata Hlisted Hin.
  unfold install_to_vcs, bind at 1, asks.
  unfold bind at 1, requests_get_, call_outcome.
  fold (registries_url env). rewrite Hget, Hok.
  change (negb true) with false. cbv beta iota.
  unfold bind at 1 2 3 4, lift. rewrite Hbody, Hdata, Hlisted, Hin.
  change (negb true) with false. cbv beta iota.
  unfold bind at 1 2, get_username_, get_name_, call.
  set (log1 := log ++ [Get (registries_url env) (Return response)]).
  set (username := get_username env log1).
  set (log2 := log1 ++ [GetUsername username]).
  set (name := get_name env log2).
  set (log3 := log2 ++ [GetName name]).
  unfold bind, requests_post_, call_outcome.
  fold (release_url env registry_identifier).
  fold (release_form definition username name).
  set (answer := requests_post env log3 _ _ _).
  exists username, name, answer.
  destruct answer as [released|e].
  - rewrite release_outcome_reads.
    destruct (ok released);
      [| destruct (status_code released =? 409)%Z]; eexists; cbn [snd];
      unfold log3, log2, log1; rewrite <- !app_assoc; simpl;
      try reflexivity; now rewrite app_nil_r.
  - exists []. cbn [snd]. unfold log3, log2, log1.
    now rewrite <- !app_assoc.
Qed.

(** C3. The vault answers the release with status 417, which the test
    suite reads as nothing to commit: [install_to_vcs] raises
    [InstallError] with the message ["unknown"], not [InstallNoChanges]. *)
Theorem install_to_vcs_nothing_to_commit :
  let env :=
    Scenario.world "/" (fun _ => true) []
      (Scenario.response false 417 (JObject ∅)) in
  fst (install_to_vcs Scenario.foo "registry-id" false env []) =
    Raise (InstallError (CouldNotInstall "registry-id" (JString "unknown")))
  /\
  fst (install_to_vcs Scenario.foo "registry-id" false env []) <>
    Raise InstallNoChanges.
Proof.
  intros env.
  assert (H : fst (install_to_vcs Scenario.foo "registry-id" false env []) =
              Raise (InstallError
                       (CouldNotInstall "registry-id" (JString "unknown"))))
    by (vm_compute; reflexivity).
  split; [exact H |]. rewrite H. discriminate.
Qed.

(** C9. A release that goes through: the [GET] comes first, the [POST]
    goes to the release address with [overwrite] written ["false"], and the
    form it carries has the fields ["content"] (one encoded definition) and
    ["message"] (a commit message naming the author); it has no field
    ["contents"] and no field ["author"]. *)
Theorem install_to_vcs_release_form :
  let env := Scenario.world "/" (fun _ => true) [] Scenario.created in
  let form : gmap string FormValue :=
    <[ "content" := Text (encode Scenario.foo) ]>
      {[ "message" := CommitMessage "foo" (Some "0.1.0") "jdoe" "John Doe" ]}
  in
  install_to_vcs Scenario.foo "registry-id" false env [] =
    (Return tt,
     [Get "https://wiz.themill.com/api/registry/all"
        (Return (Scenario.response true 200 Scenario.registries_body));
      GetUsername "jdoe";
      GetName (Some "John Doe");
      Post "https://wiz.themill.com/api/registry/registry-id/release"
        {[ "overwrite" := "false" ]} form (Return Scenario.created);
      Info (Installed "foo" (Some "0.1.0") "registry-id")]) /\
  form !! "contents" = None /\
  form !! "author" = None /\
  dom form = ({[ "content"; "message" ]} : gset string).
Proof.
  intros env form. repeat split; vm_compute; reflexivity.
Qed.

(** ** [shell] *)

Section ShellFacts.

Import Spawn.

Variable Mode : Type.
Variable raw : Mode -> Mode.




Lemma loop_until_exit (rounds : list Round) (returncode : Z)
    (rest : list Tick) :
  Forall (served (Mode := Mode)) rounds ->
  forall w : World Mode,
    fst (loop (map Selected rounds ++ Exited returncode :: rest) w) = Returned.
Proof.
  induction 1 as [|r rounds Hr _ IH]; intros w; [reflexivity |].
  simpl. unfold served in Hr.
  destruct (turn r) as [verdict calls]. simpl in Hr. subst verdict.
  apply IH.
Qed.

(** X22. Once the child has exited, and no call on the way raised, [shell]
    returns and the terminal is back in the mode it was found in. *)
Lemma shell_returns_when_child_exits (environment : gmap string string)
    (shell_type executable : string) (script : Script)
    (rounds : list Round) (returncode : Z) (rest : list Tick)
    (w : World Mode) :
  find_executable script shell_type = Some executable ->
  tcgetattr_error script = None -> setraw_error script = None ->
  openpty_error script = None -> popen_error script = None ->
  tcsetattr_error script = None ->
  ticks script = map Selected rounds ++ Exited returncode :: rest ->
  Forall (served (Mode := Mode)) rounds ->
  fst (shell raw environment shell_type script w) = Returned /\
  tty (snd (shell raw environment shell_type script w)) = tty w.
Proof.
  intros Hexe Hget Hraw Hpty Hpopen Hset Hticks Hserved.
  unfold shell, attempt. rewrite Hexe, Hget, Hraw, Hpty, Hpopen, Hticks.
  match goal with
  | |- context [loop ?script ?w0] =>
      pose proof (loop_until_exit rounds returncode rest Hserved w0) as Hl;
      destruct (loop script w0) as [exit w']
  end.
  simpl in Hl. subst exit. rewrite Hset. split; reflexivity.
Qed.



End ShellFacts.

Lemma shell_returns_when_child_exits_witness :
  let script :=
    Scenario.session
      [Spawn.Selected (Scenario.keystroke "ls");
       Spawn.Selected (Scenario.output "a b");
       Spawn.Exited 0] in
  let run := Spawn.shell Tty.setraw ∅ "bash" script Scenario.at_login in
  fst run = Spawn.Returned /\ Spawn.tty (snd run) = Tty.cooked.
Proof.
  intros script run.
  apply (shell_returns_when_child_exits Tty.termios Tty.setraw ∅ "bash"
           "/bin/bash" script
           [Scenario.keystroke "ls"; Scenario.output "a b"] 0 []);
    try reflexivity.
  repeat constructor.
Defined.


(** Both descriptors readable at once: only standard input is served. *)
Example both_ready_serves_stdin :
  Spawn.turn (Mode := Tty.termios) (Scenario.both_ready "x") =
    (Spawn.Ok tt,
     [Spawn.Read Spawn.Stdin 10240;
      Spawn.Write Spawn.Master (Scenario.bytes_of "x")]).
Proof. reflexivity. Qed.

(** ** [execute] *)

Section ExecuteFacts.

Import Execute.

Lemma rstrip_ends (s : string) : ends_with_space (rstrip s) = false.
Proof.
  induction s as [|c s IH]; [reflexivity |].
  simpl rstrip. destruct (rstrip s) as [|d kept].
  - destruct (is_space c) eqn:Hc; [reflexivity | exact Hc].
  - exact IH.
Qed.

(** A line is what [rstrip] keeps of it, followed by whitespace only. *)
Lemma rstrip_split (s : string) :
  exists w, s = rstrip s +:+ w /\ all_space w = true.
Proof.
  induction s as [|c s (w & Hs & Hw)]; [exists ""; split; reflexivity |].
  simpl rstrip. destruct (rstrip s) as [|d kept].
  - destruct (is_space c) eqn:Hc.
    + exists (String c w). split.
      * rewrite append_nil_l in *. now rewrite <- Hs.
      * simpl. now rewrite Hc, Hw.
    + exists w. split; [| exact Hw].
      rewrite append_cons. now rewrite <- Hs.
  - exists w. split; [| exact Hw].
    rewrite append_cons. now rewrite <- Hs.
Qed.

Lemma printed_app (a b : list Call) : printed (a ++ b) = printed a ++ printed b.
Proof. apply flat_map_app. Qed.

Lemma read_app (a b : list Call) : read (a ++ b) = read a ++ read b.
Proof. apply flat_map_app. Qed.

(** What the [for] loop adds to the trace. *)
Lemma for_lines_adds (print_error : string -> option exn)
    (answers : list string) :
  forall trace, exists added,
    snd (for_lines print_error answers trace) = trace ++ added /\
    printed added = rstrip <$> List.filter nonempty (read added) /\
    Forall tidy_print added.
Proof.
  induction answers as [|line answers IH]; intros trace.
  - exists []. simpl. rewrite app_nil_r. repeat split. constructor.
  - simpl for_lines. destruct (line =? "")%string eqn:He.
    + exists [Readline line]. split; [reflexivity |].
      split; [| repeat constructor].
      simpl. unfold nonempty. now rewrite He.
    + destruct (print_error (rstrip line)) as [e|].
      * exists [Readline line; Print (rstrip line) CRLF].
        split; [reflexivity |]. split.
        -- simpl. unfold nonempty. now rewrite He.
        -- repeat constructor. apply rstrip_ends.
      * destruct (IH (trace ++ [Readline line; Print (rstrip line) CRLF]))
          as (added & -> & Hp & Ht).
        exists (Readline line :: Print (rstrip line) CRLF :: added).
        split; [now rewrite <- app_assoc |]. split.
        -- change (printed (Readline line :: Print (rstrip line) CRLF
                              :: added))
             with (rstrip line :: printed added).
           change (read (Readline line :: Print (rstrip line) CRLF :: added))
             with (line :: read added).
           simpl List.filter. unfold nonempty at 1. rewrite He. simpl.
           now rewrite Hp.
        -- repeat constructor; [apply rstrip_ends | exact Ht].
Qed.

Lemma while_running_adds (print_error : string -> option exn)
    (polls : list (option Z)) :
  forall iterator trace, exists added,
    snd (while_running print_error polls iterator trace) = trace ++ added /\
    printed added = rstrip <$> List.filter nonempty (read added) /\
    Forall tidy_print added.
Proof.
  induction polls as [|poll polls IH]; intros iterator trace.
  - exists []. simpl. rewrite app_nil_r. repeat split. constructor.
  - destruct poll as [code|]; simpl.
    + exists [Poll (Some code)]. repeat split. repeat constructor.
    + destruct iterator as [answers|].
      * destruct (for_lines_adds print_error answers (trace ++ [Poll None]))
          as (added & Hadded & Hp & Ht).
        destruct (for_lines print_error answers (trace ++ [Poll None]))
          as [[|exit] trace'] eqn:Hfor; simpl in Hadded; subst trace'.
        -- destruct (IH None ((trace ++ [Poll None]) ++ added))
             as (added' & -> & Hp' & Ht').
           exists (Poll None :: added ++ added').
           split; [now rewrite <- !app_assoc |]. split.
           ++ change (printed (Poll None :: added ++ added'))
                with (printed (added ++ added')).
              change (read (Poll None :: added ++ added'))
                with (read (added ++ added')).
              rewrite printed_app, read_app, List.filter_app, fmap_app.
              now rewrite Hp, Hp'.
           ++ constructor; [exact I | now apply Forall_app].
        -- exists (Poll None :: added).
           split; [now rewrite <- !app_assoc |].
           split; [exact Hp | now constructor].
      * destruct (IH None (trace ++ [Poll None])) as (added & -> & Hp & Ht).
        exists (Poll None :: added).
        split; [now rewrite <- !app_assoc |].
        split; [exact Hp | now constructor].
Qed.

(** X1. Whatever the process and the operating system do, [execute] hands
    to [print], in order, every non-empty line it read, stripped of its
    trailing whitespace, always with the line end ["\r\n"]: no text it
    prints ends in whitespace, and no line read is left out or printed
    twice. *)
Theorem execute_prints_stripped_lines (command : string)
    (environment : gmap string string) (script : Script) :
  let trace := snd (execute command environment script) in
  printed trace = rstrip <$> List.filter nonempty (read trace) /\
  Forall tidy_print trace.
Proof.
  unfold execute.
  destruct (shlex_split script command) as [args|];
    [| split; [reflexivity | constructor]].
  destruct (popen_error script) as [e|];
    [split; [reflexivity | repeat constructor] |].
  destruct (while_running_adds (print_error script) (polls script)
              (Some (lines script)) [Popen args environment])
    as (added & Hadded & Hp & Ht).
  cbv zeta. rewrite Hadded. split; [exact Hp | now constructor].
Qed.

Lemma for_lines_until_eof (print_error : string -> option exn)
    (ls more : list string) :
  Forall (fun l => nonempty l = true) ls ->
  (forall l, In l ls -> print_error (rstrip l) = None) ->
  forall trace,
    for_lines print_error (ls ++ "" :: more) trace =
      (Exhausted, trace ++ echo_calls ls ++ [Readline ""]).
Proof.
  induction 1 as [|l ls Hl _ IH]; intros Hprint trace.
  - reflexivity.
  - simpl app. simpl for_lines.
    unfold nonempty in Hl. apply negb_true_iff in Hl. rewrite Hl.
    rewrite (Hprint l (or_introl eq_refl)).
    rewrite IH by (intros l' Hin; apply Hprint; now right).
    unfold echo_calls. simpl flat_map. now rewrite <- !app_assoc.
Qed.

Lemma while_running_idle (print_error : string -> option exn)
    (polls : list (option Z)) :
  forall trace,
    while_running print_error polls None trace =
      (if existsb exited polls then Returned else Running,
       trace ++ (Poll <$> until_exit polls)).
Proof.
  induction polls as [|[code|] polls IH]; intros trace; simpl.
  - now rewrite app_nil_r.
  - reflexivity.
  - rewrite IH. now rewrite <- app_assoc.
Qed.

(** X2. A process still running at the first poll, whose output is the
    lines [ls] and then the end of the stream: [execute] reads every line
    once, prints each stripped and followed by ["\r\n"] right after reading
    it, reads the end of the stream once and never reads again; from then on
    it only polls, and returns at the first poll that says the process has
    exited. *)
Theorem execute_echoes_until_eof (command : string)
    (environment : gmap string string) (script : Script)
    (args : list string) (ls more : list string)
    (polls' : list (option Z)) :
  shlex_split script command = Some args ->
  popen_error script = None ->
  polls script = None :: polls' ->
  lines script = ls ++ "" :: more ->
  Forall (fun l => nonempty l = true) ls ->
  (forall l, In l ls -> print_error script (rstrip l) = None) ->
  execute command environment script =
    (if existsb exited polls' then Returned else Running,
     [Popen args environment; Poll None] ++ echo_calls ls ++
     [Readline ""] ++ (Poll <$> until_exit polls')).
Proof.
  intros Hsplit Hpopen Hpolls Hlines Hls Hprint.
  unfold execute. rewrite Hsplit, Hpopen, Hpolls, Hlines.
  simpl while_running.
  rewrite (for_lines_until_eof _ ls more Hls Hprint).
  rewrite while_running_idle. now rewrite <- !app_assoc.
Qed.

(** X3. A process that has already exited at the first poll: [execute]
    returns at once; it never calls [readline] and prints nothing, whatever
    the process wrote. *)
Theorem execute_skips_finished_process (command : string)
    (environment : gmap string string) (script : Script)
    (args : list string) (code : Z) (polls' : list (option Z)) :
  shlex_split script command = Some args ->
  popen_error script = None ->
  polls script = Some code :: polls' ->
  execute command environment script =
    (Returned, [Popen args environment; Poll (Some code)]) /\
  read (snd (execute command environment script)) = [] /\
  echoed (snd (execute command environment script)) = "".
Proof.
  intros Hsplit Hpopen Hpolls.
  unfold execute. rewrite Hsplit, Hpopen, Hpolls. repeat split.
Qed.

End ExecuteFacts.

Lemma execute_echoes_until_eof_witness :
  let script := two_lines in
  let ls := ["total 0  " +:+ Execute.LF; "a.txt" +:+ Execute.LF] in
  (Execute.shlex_split script "ls -l" = Some ["ls"; "-l"] /\
   Execute.popen_error script = None /\
   Execute.polls script = None :: [None; Some 0%Z] /\
   Execute.lines script = ls ++ "" :: [] /\
   Forall (fun l => nonempty l = true) ls /\
   (forall l, In l ls -> Execute.print_error script (Execute.rstrip l) = None))
  /\
  Execute.execute "ls -l" ∅ script =
    (if existsb exited [None; Some 0%Z]
     then Execute.Returned else Execute.Running,
     [Execute.Popen ["ls"; "-l"] ∅; Execute.Poll None] ++ echo_calls ls ++
     [Execute.Readline ""] ++ (Execute.Poll <$> until_exit [None; Some 0%Z])).
Proof.
  intros script ls.
  assert (H1 : Forall (fun l => nonempty l = true) ls)
    by (repeat constructor).
  assert (H2 : forall l, In l ls ->
                 Execute.print_error script (Execute.rstrip l) = None)
    by reflexivity.
  split; [repeat split; assumption |].
  exact (execute_echoes_until_eof "ls -l" ∅ script ["ls"; "-l"] ls []
           [None; Some 0%Z] eq_refl eq_refl eq_refl eq_refl H1 H2).
Defined.

(** What reaches standard output in that run. *)
Example two_lines_echoed :
  Execute.echoed (snd (Execute.execute "ls -l" ∅ two_lines)) =
    "total 0" +:+ Execute.CRLF +:+ "a.txt" +:+ Execute.CRLF.
Proof. reflexivity. Qed.

Lemma execute_skips_finished_process_witness :
  (Execute.shlex_split already_gone "ls -l" = Some ["ls"; "-l"] /\
   Execute.popen_error already_gone = None /\
   Execute.polls already_gone = Some 0%Z :: []) /\
  Execute.execute "ls -l" ∅ already_gone =
    (Execute.Returned,
     [Execute.Popen ["ls"; "-l"] ∅; Execute.Poll (Some 0%Z)]) /\
  Execute.read (snd (Execute.execute "ls -l" ∅ already_gone)) = [] /\
  Execute.echoed (snd (Execute.execute "ls -l" ∅ already_gone)) = "".
Proof.
  split; [repeat split |].
  exact (execute_skips_finished_process "ls -l" ∅ already_gone ["ls"; "-l"]
           0%Z [] eq_refl eq_refl eq_refl).
Defined.

(** ** [wiz/system.py] *)

Section SystemFacts.

Import System.

Lemma lower_char_idempotent (c : ascii) :
  lower_char (lower_char c) = lower_char c.
Proof. destruct c as [[] [] [] [] [] [] [] []]; reflexivity. Qed.

Lemma lower_idempotent (s : string) : lower (lower s) = lower s.
Proof.
  induction s as [|c s IH]; simpl; [reflexivity |].
  now rewrite lower_char_idempotent, IH.
Qed.

(** X4. [query_platform] goes by the system name in lower case.  It
    answers on exactly the three systems linux, darwin and windows, however
    the name is capitalized, and the platform it answers with calls itself
    by that name, except on darwin where it calls itself mac.  On any other
    system it raises [UnsupportedPlatform] with the name in lower case. *)
Theorem query_platform_by_lowercase_name (host : Host) :
  let system := lower (platform_system host) in
  match query_platform host with
  | inl p =>
      system = system_name p /\
      name p = (if (system =? "darwin")%string then "mac" else system)
  | inr (UnsupportedPlatform n) =>
      n = system /\ lower n = n /\ ~ In system supported_systems
  end.
Proof.
  cbv zeta. unfold query_platform.
  destruct (lower (platform_system host) =? "linux")%string eqn:Hl.
  - apply String.eqb_eq in Hl. rewrite Hl. split; reflexivity.
  - destruct (lower (platform_system host) =? "darwin")%string eqn:Hd.
    + apply String.eqb_eq in Hd. rewrite Hd. split; reflexivity.
    + destruct (lower (platform_system host) =? "windows")%string eqn:Hw.
      * apply String.eqb_eq in Hw. rewrite Hw. split; reflexivity.
      * split; [reflexivity |]. split; [apply lower_idempotent |].
        apply String.eqb_neq in Hl, Hd, Hw.
        intros [H | [H | [H | []]]]; congruence.
Qed.

(** X5. Away from the old Windows interpreters, that is when [os.name] is
    not ["nt"] or the interpreter is 2.7 or later, [arch] is what
    [platform.machine()] says on every platform, whatever the environment
    variables hold. *)
Theorem arch_is_machine (p : Platform) (host : Host) :
  os_name host <> "nt" \/
  (2 < fst (version_info host) \/
   fst (version_info host) = 2 /\ 7 <= snd (version_info host))%Z ->
  arch p host = platform_machine host.
Proof.
  intros H. destruct p; try reflexivity. unfold arch, tuple_lt.
  destruct (os_name host =? "nt")%string eqn:Hnt; [| reflexivity].
  apply String.eqb_eq in Hnt. cbn [andb fst snd].
  destruct H as [H | H]; [contradiction |].
  replace ((fst (version_info host) <? 2)%Z) with false
    by (symmetry; apply Z.ltb_ge; lia).
  destruct (fst (version_info host) =? 2)%Z eqn:He; [| reflexivity].
  replace ((snd (version_info host) <? 7)%Z) with false;
    [reflexivity |].
  symmetry. apply Z.ltb_ge. apply Z.eqb_eq in He. lia.
Qed.

(** X6. On Windows under an interpreter older than 2.7,
    [PROCESSOR_ARCHITEW6432] decides the architecture when it is set,
    [PROCESSOR_ARCHITECTURE] when only that one is set, and
    [platform.machine()] when neither is. *)
Theorem arch_on_old_windows (host : Host) :
  os_name host = "nt" ->
  (fst (version_info host) < 2 \/
   fst (version_info host) = 2 /\ snd (version_info host) < 7)%Z ->
  (forall a, environ host !! "PROCESSOR_ARCHITEW6432" = Some a ->
             arch WindowsPlatform host = a) /\
  (forall a, environ host !! "PROCESSOR_ARCHITEW6432" = None ->
             environ host !! "PROCESSOR_ARCHITECTURE" = Some a ->
             arch WindowsPlatform host = a) /\
  (environ host !! "PROCESSOR_ARCHITEW6432" = None ->
   environ host !! "PROCESSOR_ARCHITECTURE" = None ->
   arch WindowsPlatform host = platform_machine host).
Proof.
  intros Hnt Hold. unfold arch, tuple_lt. rewrite Hnt.
  change ("nt" =? "nt")%string with true. cbn [andb fst snd].
  replace ((fst (version_info host) <? 2)%Z
           || (fst (version_info host) =? 2)%Z
              && (snd (version_info host) <? 7)%Z) with true.
  - repeat split.
    + intros a ->. reflexivity.
    + intros a -> ->. reflexivity.
    + intros -> ->. reflexivity.
  - symmetry. destruct Hold as [H | [H1 H2]].
    + apply Z.ltb_lt in H. now rewrite H.
    + apply Z.eqb_eq in H1. apply Z.ltb_lt in H2. rewrite H1, H2.
      apply orb_true_r.
Qed.

End SystemFacts.

Lemma arch_is_machine_witness :
  (System.os_name linux_host <> "nt" \/
   (2 < fst (System.version_info linux_host) \/
    fst (System.version_info linux_host) = 2 /\
    7 <= snd (System.version_info linux_host))%Z) /\
  System.arch System.LinuxPlatform linux_host =
    System.platform_machine linux_host.
Proof.
  assert (H : System.os_name linux_host <> "nt" \/
              (2 < fst (System.version_info linux_host) \/
               fst (System.version_info linux_host) = 2 /\
               7 <= snd (System.version_info linux_host))%Z)
    by (left; discriminate).
  split; [exact H |].
  exact (arch_is_machine System.LinuxPlatform linux_host H).
Defined.

Lemma arch_on_old_windows_witness :
  System.os_name old_windows_host = "nt" /\
  (fst (System.version_info old_windows_host) < 2 \/
   fst (System.version_info old_windows_host) = 2 /\
   snd (System.version_info old_windows_host) < 7)%Z /\
  System.arch System.WindowsPlatform old_windows_host = "AMD64".
Proof.
  assert (H : (fst (System.version_info old_windows_host) < 2 \/
               fst (System.version_info old_windows_host) = 2 /\
               snd (System.version_info old_windows_host) < 7)%Z)
    by (right; split; [reflexivity | reflexivity]).
  split; [reflexivity |]. split; [exact H |].
  exact (proj1 (arch_on_old_windows old_windows_host eq_refl H) "AMD64"
           eq_refl).
Defined.

(** A Linux host, whatever the capitals in its name. *)
Example query_platform_linux :
  System.query_platform linux_host = inl System.LinuxPlatform /\
  System.os_version System.LinuxPlatform linux_host = "centos==7.3.1611".
Proof. split; reflexivity. Qed.

(** ** More on the registry locator *)

Lemma get_local_run (env : Env) (log : list Event) :
  let path := local_registry env in
  let is_dir := isdir env log path in
  let readable := access env (log ++ [IsDir path true]) path in
  get_local env log =
    (Return (if is_dir && readable then Some path else None),
     log ++ IsDir path is_dir ::
       (if is_dir then [Access path readable] else [])).
Proof.
  cbv zeta.
  unfold get_local, bind, asks, os_path_isdir, os_access, call, ret.
  fold (local_registry env).
  destruct (isdir env log (local_registry env)); cbv beta iota.
  - rewrite <- app_assoc. reflexivity.
  - reflexivity.
Qed.

(** X7. [get_local] answers with [~/.wiz/registry] exactly when
    [os.path.isdir] and then [os.access] both said yes; it asks
    [os.access] only about a directory [os.path.isdir] has confirmed
    (otherwise it makes that one call only), and it never raises. *)
Theorem get_local_needs_both_answers (env : Env) (log : list Event) :
  exists (is_dir readable : bool),
    fst (get_local env log) =
      Return (if is_dir && readable then Some (local_registry env)
              else None) /\
    snd (get_local env log) =
      log ++ IsDir (local_registry env) is_dir ::
        (if is_dir then [Access (local_registry env) readable] else []) /\
    ((exists path, fst (get_local env log) = Return (Some path)) <->
     (is_dir = true /\ readable = true)).
Proof.
  pose proof (get_local_run env log) as H. cbv zeta in H.
  exists (isdir env log (local_registry env)),
         (access env (log ++ [IsDir (local_registry env) true])
            (local_registry env)).
  rewrite H. cbn [fst snd].
  split; [reflexivity |]. split; [reflexivity |].
  destruct (isdir env log (local_registry env)),
           (access env (log ++ [IsDir (local_registry env) true])
              (local_registry env)); cbn [andb]; split;
    try (intros [path Hp]; discriminate Hp);
    try (intros [Ht1 Ht2]; discriminate);
    try (intros _; split; reflexivity);
    try (intros _; eauto).
Qed.

Lemma answered_yes_sublist (paths : list string) :
  forall answers : list bool, answered_yes paths answers `sublist_of` paths.
Proof.
  induction paths as [|p paths IH]; intros answers.
  - apply sublist_nil_l.
  - destruct answers as [|a answers]; [apply sublist_nil_l |].
    rewrite answered_yes_cons. destruct a.
    + apply sublist_skip, IH.
    + apply sublist_cons, IH.
Qed.

(** X9. With both switches off [fetch] asks about each explicit path once,
    in order, and returns those answered accessible: a sub-sequence of what
    it was given, nothing resolved, added or reordered.  It then still asks
    [os.path.isdir] about the local registry, although it will not use the
    answer. *)
Theorem fetch_explicit_paths_only (env : Env) (log : list Event)
    (paths : list string) :
  exists (answers : list bool) (is_dir : bool) (rest : list Event),
    List.length answers = List.length paths /\
    fst (fetch paths false false env log) =
      Return (answered_yes paths answers) /\
    answered_yes paths answers `sublist_of` paths /\
    snd (fetch paths false false env log) =
      log ++ zip_with IsAccessible paths answers ++
      IsDir (local_registry env) is_dir :: rest.
Proof.
  destruct (fetch_paths_answers env paths [] log) as (answers & Hlen & Hrun).
  simpl in Hrun.
  pose proof (get_local_run env (log ++ zip_with IsAccessible paths answers))
    as Hlocal. cbv zeta in Hlocal.
  assert (Hfetch :
    fetch paths false false env log =
      (Return (answered_yes paths answers),
       (log ++ zip_with IsAccessible paths answers) ++
       IsDir (local_registry env)
         (isdir env (log ++ zip_with IsAccessible paths answers)
            (local_registry env))
       :: (if isdir env (log ++ zip_with IsAccessible paths answers)
                (local_registry env)
           then [Access (local_registry env)
                   (access env
                      ((log ++ zip_with IsAccessible paths answers) ++
                       [IsDir (local_registry env) true])
                      (local_registry env))]
           else []))).
  { unfold fetch. unfold bind at 1. rewrite Hrun.
    unfold bind at 1. unfold ret at 1. unfold bind. rewrite Hlocal.
    unfold ret. f_equal. f_equal.
    match goal with
    | |- match (if ?c then _ else _) with _ => _ end = _ => destruct c
    end; cbv beta iota; [now rewrite andb_false_r | reflexivity]. }
  rewrite Hfetch. cbn [fst snd].
  exists answers. eexists _, _.
  split; [exact Hlen |]. split; [reflexivity |].
  split; [apply answered_yes_sublist |].
  symmetry. apply List.app_assoc.
Qed.

Lemma discover_loop_only_checks (env : Env) (folders : list string) :
  forall (prefix : string) (log : list Event),
    exists yielded checks,
      discover_loop folders prefix env log = (Return yielded, log ++ checks) /\
      forall path answer, ~ In (IsDir path answer) checks.
Proof.
  induction folders as [|f folders IH]; intros prefix log.
  - exists [], []. simpl. unfold ret. rewrite app_nil_r.
    split; [reflexivity |]. intros path answer [].
  - simpl discover_loop. unfold bind at 1. unfold is_accessible_, call.
    cbv zeta.
    match goal with
    | |- context [bind (discover_loop folders ?p) _ env (log ++ [?ev])] =>
        destruct (IH p (log ++ [ev])) as (yielded & checks & Hrun & Hchecks);
        exists (if is_accessible env log
                     (PosixPath.join p [".wiz"; "registry"])
                then PosixPath.join p [".wiz"; "registry"] :: yielded
                else yielded), (ev :: checks)
    end.
    unfold bind. rewrite Hrun. unfold ret. rewrite <- app_assoc.
    split; [reflexivity |].
    intros path answer [H | H]; [discriminate H |].
    exact (Hchecks path answer H).
Qed.

Lemma discover_only_checks (env : Env) (path : string) (log : list Event) :
  exists yielded checks,
    discover path env log = (Return yielded, log ++ checks) /\
    forall p answer, ~ In (IsDir p answer) checks.
Proof.
  unfold discover, bind, asks.
  match goal with |- context [if ?c then _ else _] => destruct c end.
  - exists [], []. unfold ret. rewrite app_nil_r. split; [reflexivity |].
    intros p answer [].
  - apply discover_loop_only_checks.
Qed.

(** X10. Whatever the switches, also with [include_local] off, [fetch]
    ends by asking [os.path.isdir] about the local registry. *)
Theorem fetch_probes_local_registry (env : Env) (log : list Event)
    (paths : list string) (include_local include_working_directory : bool) :
  exists (before : list Event) (is_dir : bool) (rest : list Event),
    snd (fetch paths include_local include_working_directory env log) =
      log ++ before ++ IsDir (local_registry env) is_dir :: rest /\
    (forall (path : string) (answer : bool),
       ~ In (IsDir path answer) before) /\
    List.length rest <= 1.
Proof.
  destruct (fetch_paths_answers env paths [] log) as (answers & Hlen & Hrun).
  simpl in Hrun.
  set (log1 := log ++ zip_with IsAccessible paths answers) in *.
  assert (exists yielded checks,
             (if include_working_directory
              then discover (getcwd env) env log1
              else (Return [], log1)) =
               (Return yielded, log1 ++ checks) /\
             forall path answer, ~ In (IsDir path answer) checks)
    as (yielded & checks & Hdisc & Hchecks).
  { destruct include_working_directory.
    - apply discover_only_checks.
    - exists [], []. rewrite app_nil_r. split; [reflexivity |].
      intros path answer []. }
  pose proof (get_local_run env (log1 ++ checks)) as Hlocal.
  cbv zeta in Hlocal.
  exists (zip_with IsAccessible paths answers ++ checks).
  eexists _, _.
  unfold fetch. unfold bind at 1. rewrite Hrun. unfold bind at 1.
  assert ((if include_working_directory
           then bind (asks getcwd)
                  (fun cwd =>
                     bind (discover cwd)
                       (fun discovered =>
                          ret (answered_yes paths answers ++ discovered)))
           else ret (answered_yes paths answers)) env log1 =
          (Return (answered_yes paths answers ++ yielded), log1 ++ checks))
    as ->.
  { destruct include_working_directory.
    - unfold bind, asks. rewrite Hdisc. reflexivity.
    - unfold ret. inversion Hdisc. now rewrite !app_nil_r. }
  unfold bind. rewrite Hlocal. unfold ret. cbn [snd].
  split; [unfold log1; now rewrite <- !app_assoc |].
  split.
  - intros path answer Hin. apply in_app_or in Hin as [Hin | Hin].
    + clear - Hin. revert answers Hin.
      induction paths as [|p paths IH]; intros [|a answers] Hin;
        try contradiction.
      destruct Hin as [H | H]; [discriminate H | exact (IH _ H)].
    + exact (Hchecks path answer Hin).
  - match goal with
    | |- context [if ?c then _ else _] => destruct c
    end; simpl; lia.
Qed.

(** *** Where [discover] looks *)

Lemma length_append (a b : string) :
  String.length (a +:+ b) = (String.length a + String.length b)%nat.
Proof.
  induction a as [|c a IH]; push_append; simpl; [reflexivity | now rewrite IH].
Qed.

Lemma endswith_app_self (a s : string) : Py.endswith (a +:+ s) s = true.
Proof.
  induction a as [|c a IH]; push_append.
  - destruct s; simpl; [reflexivity |].
    now rewrite Ascii.eqb_refl, String.eqb_refl.
  - simpl. rewrite IH. apply orb_true_r.
Qed.

(** A normalized path that starts with the text of the root is a slash
    followed by folder names. *)
Lemma normpath_rooted (q : string) :
  Py.startswith (PosixPath.normpath q) discovery_root = true ->
  exists comps,
    Forall (fun f => folder_name f = true) comps /\
    PosixPath.normpath q = "/" +:+ Py.join "/" comps.
Proof.
  unfold PosixPath.normpath.
  destruct (q =? "")%string; [discriminate |].
  set (n := if Py.startswith q "/" then _ else _).
  set (comps := fold_left (PosixPath.normpath_step n)
                  (Py.split PosixPath.sep q) []).
  assert (Hnames : Forall (fun f => folder_name f = true) comps)
    by (apply normpath_fold_names;
        [apply split_pieces_no_sep | constructor]).
  intros Hstart. exists comps. split; [exact Hnames |].
  destruct n as [|[|n']].
  - pose proof (join_names_relative comps Hnames) as Hrel.
    destruct (Py.join "/" comps =? "")%string; [discriminate Hstart |].
    apply startswith_app_inv in Hstart as [rest Hrest].
    rewrite Hrest in Hrel. discriminate Hrel.
  - destruct ("/" +:+ Py.join "/" comps =? "")%string eqn:He;
      [discriminate He | reflexivity].
  - destruct ("//" +:+ Py.join "/" comps =? "")%string eqn:He;
      [discriminate He | discriminate Hstart].
Qed.

Lemma levels_below (folders : list string) :
  Forall (fun f => folder_name f = true) folders ->
  forall base,
    Forall (fun level => exists rest,
              rest <> "" /\ level = base +:+ "/" +:+ rest)
      (levels base folders).
Proof.
  induction 1 as [|f folders Hf _ IH]; intros base; simpl; constructor.
  - exists f. split; [now apply folder_name_nonempty | reflexivity].
  - eapply Forall_impl; [apply IH |].
    intros level (rest & Hrest & ->). exists (f +:+ "/" +:+ rest).
    split; [destruct f; discriminate | now rewrite !append_assoc].
Qed.

Lemma registry_of_level (rest : string) :
  rest <> "" ->
  level_registry (registry_of (discovery_root +:+ "/" +:+ rest)).
Proof.
  intros Hrest. unfold level_registry, registry_of. split; [| split].
  - unfold discovery_root. push_append. reflexivity.
  - apply endswith_app_self.
  - intros H. apply (f_equal String.length) in H.
    rewrite !length_append in H. simpl in H.
    destruct rest; [contradiction | simpl in H; lia].
Qed.

Lemma level_registries (folders : list string) :
  Forall (fun f => folder_name f = true) folders ->
  Forall level_registry (registry_of <$> levels discovery_root folders).
Proof.
  intros Hf. apply Forall_fmap.
  eapply Forall_impl; [apply (levels_below folders Hf) |].
  intros level (rest & Hrest & ->). now apply registry_of_level.
Qed.

Lemma checks_on_level_registries (paths : list string) :
  Forall level_registry paths ->
  forall answers, Forall level_check (zip_with IsAccessible paths answers).
Proof.
  induction 1 as [|p paths Hp _ IH]; intros [|a answers]; simpl;
    constructor; [exact Hp | apply IH].
Qed.

Lemma Forall_of_sublist {A : Type} (P : A -> Prop) (l k : list A) :
  l `sublist_of` k -> Forall P k -> Forall P l.
Proof.
  induction 1 as [|x l k _ IH|x l k _ IH]; intros H.
  - constructor.
  - inversion H; subst. constructor; [assumption | now apply IH].
  - inversion H; subst. now apply IH.
Qed.

(** X11. For every start path, also one outside the root or beside it,
    everything [discover] asks about and everything it yields is the
    [.wiz/registry] of a directory strictly below [/jobs/ads]: the path
    starts with ["/jobs/ads/"], ends with ["/.wiz/registry"] and is never
    the registry of the root itself; [discover] makes no other call and
    never raises. *)
Theorem discover_stays_below_root (env : Env) (log : list Event)
    (path : string) :
  exists (yielded : list string) (checks : list Event),
    discover path env log = (Return yielded, log ++ checks) /\
    Forall level_check checks /\
    Forall level_registry yielded.
Proof.
  unfold discover, bind, asks. rewrite join_root.
  destruct (Py.startswith (PosixPath.abspath (getcwd env) path)
              discovery_root) eqn:Hstart.
  - unfold PosixPath.abspath in *.
    destruct (normpath_rooted _ Hstart) as (comps & Hnames & Habs).
    rewrite Habs in *. rewrite split_sep_cons.
    destruct comps as [|c comps]; [discriminate Hstart |].
    rewrite (split_join (c :: comps)) by
      (discriminate || now apply names_no_sep).
    change (drop 3 ("" :: c :: comps)) with (drop 1 comps).
    assert (Hf : Forall (fun f => folder_name f = true) (drop 1 comps))
      by (apply Forall_drop; now inversion Hnames).
    destruct root_open as [Hne Hend].
    destruct (discover_loop_levels env (drop 1 comps) Hf discovery_root log
                Hne Hend) as (answers & _ & Hrun).
    cbn [negb]. rewrite Hrun.
    eexists _, _. split; [reflexivity |].
    pose proof (level_registries (drop 1 comps) Hf) as Hregs.
    split; [now apply checks_on_level_registries |].
    eapply Forall_of_sublist; [apply answered_yes_sublist | exact Hregs].
  - exists [], []. cbn [negb]. unfold ret. rewrite app_nil_r.
    repeat split; constructor.
Qed.

(** *** One level deeper *)

Lemma join_folder_names (folders : list string) :
  Forall (fun f => folder_name f = true) folders ->
  forall prefix,
    prefix <> "" -> Py.endswith prefix "/" = false ->
    PosixPath.join prefix folders = prefix +:+ below folders /\
    PosixPath.join prefix folders <> "" /\
    Py.endswith (PosixPath.join prefix folders) "/" = false.
Proof.
  induction 1 as [|f folders Hf _ IH]; intros prefix Hne Hend.
  - simpl. now rewrite append_nil_r.
  - change (PosixPath.join prefix (f :: folders))
      with (PosixPath.join (PosixPath.join2 prefix f) folders).
    rewrite (join2_folder prefix f Hne Hend Hf).
    destruct (IH (prefix +:+ "/" +:+ f)) as (Hjoin & Hne' & Hend');
      [apply extended_nonempty | now apply extended_endswith |].
    rewrite Hjoin in *. simpl below. rewrite !append_assoc in *.
    auto.
Qed.

Lemma discover_loop_snoc (env : Env) (f : string) (folders : list string) :
  forall (prefix : string) (log : list Event) (yielded : list string)
         (log1 : list Event),
    discover_loop folders prefix env log = (Return yielded, log1) ->
    let registry :=
      PosixPath.join (PosixPath.join prefix (folders ++ [f]))
        [".wiz"; "registry"] in
    let answer := is_accessible env log1 registry in
    discover_loop (folders ++ [f]) prefix env log =
      (Return (yielded ++ (if answer then [registry] else [])),
       log1 ++ [IsAccessible registry answer]).
Proof.
  induction folders as [|x folders IH];
    intros prefix log yielded log1 Hrun; cbv zeta.
  - simpl in Hrun. unfold ret in Hrun. inversion Hrun; subst.
    simpl. unfold bind, is_accessible_, call, ret.
    now destruct (is_accessible env log1 _).
  - simpl app. simpl discover_loop in *.
    unfold bind at 1 in Hrun. unfold bind at 1.
    unfold is_accessible_, call in *. cbv beta iota zeta in *.
    unfold bind in *.
    match type of Hrun with
    | context [discover_loop folders ?p env ?l] =>
        destruct (discover_loop_returns env folders p l)
          as (yielded' & log1' & Hsub);
        rewrite Hsub in Hrun;
        rewrite (IH p l yielded' log1' Hsub)
    end.
    unfold ret in *. inversion Hrun; subst.
    match goal with
    | |- context [if ?a then _ :: yielded' else yielded'] => destruct a
    end; reflexivity.
Qed.

(** X12. Going one folder deeper adds one check and changes nothing
    before it: for a directory under the root and a folder [f] in it,
    [discover] on the folder makes the calls [discover] makes on the
    directory, gets the same answers, yields the same registries, and then
    asks once more, about the [.wiz/registry] of the folder, yielding it
    last when it is accessible. *)
Theorem discover_one_level_deeper (env : Env) (log : list Event)
    (folders : list string) (f : string) (yielded : list string)
    (log1 : list Event) :
  Forall (fun x => plain_name x = true) (folders ++ [f]) ->
  discover (discovery_root +:+ below folders) env log =
    (Return yielded, log1) ->
  let registry := registry_of (discovery_root +:+ below (folders ++ [f])) in
  let answer := is_accessible env log1 registry in
  discover (discovery_root +:+ below (folders ++ [f])) env log =
    (Return (yielded ++ (if answer then [registry] else [])),
     log1 ++ [IsAccessible registry answer]).
Proof.
  intros Hplain Hparent.
  assert (Hp : Forall (fun x => plain_name x = true) folders)
    by (apply Forall_app in Hplain; tauto).
  assert (Hnames : Forall (fun x => folder_name x = true) (folders ++ [f]))
    by (eapply Forall_impl; [exact Hplain | exact plain_name_folder]).
  assert (Hn : Forall (fun x => folder_name x = true) folders)
    by (apply Forall_app in Hnames; tauto).
  destruct root_open as [Hne Hend].
  destruct (join_folder_names (folders ++ [f]) Hnames discovery_root Hne Hend)
    as (Hjoin & Hne' & Hend').
  unfold discover, bind, asks in *.
  rewrite abspath_under_root, join_root, startswith_root,
    split_under_root in * by assumption.
  cbn [negb] in *.
  rewrite (discover_loop_snoc env f folders _ _ _ _ Hparent).
  cbv zeta. rewrite join_registry by assumption.
  now rewrite Hjoin.
Qed.

Lemma discover_one_level_deeper_witness :
  let env := Scenario.answers_in_turn [false; true] in
  let registry := "/jobs/ads/project/shot/.wiz/registry" in
  (Forall (fun x => plain_name x = true) (["project"] ++ ["shot"]) /\
   discover (discovery_root +:+ below ["project"]) env [] =
     (Return [], [IsAccessible "/jobs/ads/project/.wiz/registry" false])) /\
  discover (discovery_root +:+ below (["project"] ++ ["shot"])) env [] =
    (Return ([] ++ (if is_accessible env
                         [IsAccessible "/jobs/ads/project/.wiz/registry"
                            false]
                         (registry_of
                            (discovery_root +:+
                             below (["project"] ++ ["shot"])))
                    then [registry_of
                            (discovery_root +:+
                             below (["project"] ++ ["shot"]))]
                    else [])),
     [IsAccessible "/jobs/ads/project/.wiz/registry" false] ++
     [IsAccessible
        (registry_of (discovery_root +:+ below (["project"] ++ ["shot"])))
        (is_accessible env
           [IsAccessible "/jobs/ads/project/.wiz/registry" false]
           (registry_of
              (discovery_root +:+ below (["project"] ++ ["shot"]))))]).
Proof.
  intros env registry.
  assert (H1 : Forall (fun x => plain_name x = true) (["project"] ++ ["shot"]))
    by (repeat constructor).
  assert (H2 : discover (discovery_root +:+ below ["project"]) env [] =
               (Return [],
                [IsAccessible "/jobs/ads/project/.wiz/registry" false]))
    by reflexivity.
  split; [split; assumption |].
  exact (discover_one_level_deeper env [] ["project"] "shot" [] _ H1 H2).
Defined.

(** ** More on [install_to_path] *)

(** X13. A root that is not a directory is refused with [InstallError]
    naming the root as it was given; nothing is exported, removed or
    reported, and the registry is not even looked at. *)
Theorem install_to_path_rejects_non_directory (env : Env)
    (log : list Event) (definition : WizDefinition) (root : string)
    (overwrite : bool) :
  isdir env log root = false ->
  install_to_path definition root overwrite env log =
    (Raise (InstallError (NotARegistryDirectory root)),
     log ++ [IsDir root false]).
Proof.
  intros Hd. unfold install_to_path, bind, os_path_isdir, call.
  now rewrite Hd.
Qed.

Lemma install_to_path_rejects_non_directory_witness :
  isdir no_directories [] "/tmp/somewhere" = false /\
  install_to_path Scenario.foo "/tmp/somewhere" false no_directories [] =
    (Raise (InstallError (NotARegistryDirectory "/tmp/somewhere")),
     [] ++ [IsDir "/tmp/somewhere" false]).
Proof.
  split; [reflexivity |].
  exact (install_to_path_rejects_non_directory no_directories []
           Scenario.foo "/tmp/somewhere" false eq_refl).
Defined.

Lemma startswith_dot_wiz : Py.startswith ".wiz" "/" = false.
Proof. reflexivity. Qed.

(** The directory a root stands for is a registry directory. *)
Lemma registry_directory_suffix (cwd root : string) :
  Py.endswith (registry_directory cwd root) ".wiz/registry" = true.
Proof.
  unfold registry_directory. cbv zeta.
  set (absolute := PosixPath.abspath cwd root).
  destruct (Py.endswith absolute ".wiz/registry") eqn:He; [exact He |].
  unfold PosixPath.join. simpl fold_left.
  assert (exists front, PosixPath.join2 absolute ".wiz" = front +:+ ".wiz")
    as [front Hfront].
  { unfold PosixPath.join2. rewrite startswith_dot_wiz.
    destruct ((absolute =? "")%string || Py.endswith absolute "/").
    - now exists absolute.
    - exists (absolute +:+ "/"). now rewrite append_assoc. }
  rewrite Hfront. rewrite join2_folder.
  - rewrite append_assoc.
    change (".wiz" +:+ "/" +:+ "registry") with ".wiz/registry".
    apply endswith_app_self.
  - apply append_nonempty. discriminate.
  - now rewrite endswith_sep_app by discriminate.
  - reflexivity.
Qed.

(** X14. Whatever root it is given, [install_to_path] exports only into a
    directory whose path ends in [.wiz/registry]: a root that already ends
    so is used as it is, any other gets the two folders appended. *)
Theorem install_to_path_exports_into_registry (env : Env)
    (log : list Event) (definition : WizDefinition) (root : string)
    (overwrite : bool) :
  exists calls,
    snd (install_to_path definition root overwrite env log) = log ++ calls /\
    Forall registry_export calls /\
    (forall path d o a,
       In (ExportDefinition path d o a) calls ->
       path = registry_directory (getcwd env) root /\
       d = definition /\ o = overwrite).
Proof.
  eexists. split; [apply install_to_path_trace |].
  destruct (isdir env log root).
  - destruct (export_definition _ _ _ _ _) as [done|e].
    + split.
      * repeat constructor. apply registry_directory_suffix.
      * intros path d o a [H | [H | [H | []]]]; try discriminate H.
        now inversion H.
    + split.
      * repeat constructor. apply registry_directory_suffix.
      * intros path d o a [H | [H | []]]; try discriminate H.
        now inversion H.
  - split; [repeat constructor |].
    intros path d o a [H | []]. discriminate H.
Qed.

(** X16. Past the directory test, the answer of [wiz.export_definition]
    decides: when it returns, [install_to_path] returns and reports the
    installation once; when it raises [FileExists], [DefinitionExists] is
    raised for the definition; any other exception comes out unchanged; and
    on both failures nothing is reported. *)
Theorem install_to_path_outcome (env : Env) (log : list Event)
    (definition : WizDefinition) (root : string) (overwrite : bool) :
  isdir env log root = true ->
  let target := registry_directory (getcwd env) root in
  let answer :=
    export_definition env (log ++ [IsDir root true]) target definition
      overwrite in
  install_to_path definition root overwrite env log =
    (match answer with
     | Return _ => Return tt
     | Raise FileExists =>
         Raise (DefinitionExists
                  (AlreadyExists (identifier definition)
                                 (version definition)))
     | Raise e => Raise e
     end,
     log ++ [IsDir root true;
             ExportDefinition target definition overwrite answer] ++
     match answer with
     | Return _ =>
         [Info (Installed (identifier definition) (version definition)
                          target)]
     | Raise _ => []
     end).
Proof.
  intros Hd. cbv zeta.
  unfold install_to_path, bind, os_path_isdir, call. rewrite Hd.
  change (negb true) with false. cbv beta iota.
  unfold asks, try_except, wiz_export_definition, call_outcome.
  cbv beta iota. rewrite !registry_directory_eq.
  destruct (export_definition env (log ++ [IsDir root true])
              (registry_directory (getcwd env) root) definition overwrite)
    as [[]|e].
  - unfold logger_info. now rewrite <- !app_assoc.
  - destruct e; unfold raise; now rewrite <- !app_assoc.
Qed.

Lemma install_to_path_outcome_witness :
  let env :=
    Scenario.world "/" (fun _ => true) [Scenario.baz_described]
      Scenario.created in
  isdir env [] "/tmp/root" = true /\
  install_to_path Scenario.foo "/tmp/root" false env [] =
    (match
       export_definition env ([] ++ [IsDir "/tmp/root" true])
         (registry_directory (getcwd env) "/tmp/root") Scenario.foo false
     with
     | Return _ => Return tt
     | Raise FileExists =>
         Raise (DefinitionExists
                  (AlreadyExists (identifier Scenario.foo)
                                 (version Scenario.foo)))
     | Raise e => Raise e
     end,
     [] ++ [IsDir "/tmp/root" true;
            ExportDefinition (registry_directory (getcwd env) "/tmp/root")
              Scenario.foo false
              (export_definition env ([] ++ [IsDir "/tmp/root" true])
                 (registry_directory (getcwd env) "/tmp/root") Scenario.foo
                 false)] ++
     match
       export_definition env ([] ++ [IsDir "/tmp/root" true])
         (registry_directory (getcwd env) "/tmp/root") Scenario.foo false
     with
     | Return _ =>
         [Info (Installed (identifier Scenario.foo) (version Scenario.foo)
                          (registry_directory (getcwd env) "/tmp/root"))]
     | Raise _ => []
     end).
Proof.
  intros env. split; [reflexivity |].
  exact (install_to_path_outcome env [] Scenario.foo "/tmp/root" false
           eq_refl).
Defined.

(** A new definition goes in and is reported once. *)
Example install_to_path_new_definition :
  install_to_path Scenario.foo "/tmp/root" false
    (Scenario.world "/" (fun _ => true) [Scenario.baz_described]
       Scenario.created) [] =
    (Return tt,
     [IsDir "/tmp/root" true;
      ExportDefinition "/tmp/root/.wiz/registry" Scenario.foo false
        (Return tt);
      Info (Installed "foo" (Some "0.1.0") "/tmp/root/.wiz/registry")]).
Proof. reflexivity. Qed.

(** ** More on [install_to_vcs] *)

Lemma install_to_vcs_get_refused_witness :
  let env := vault_listing refusal in
  (requests_get env [] (registries_url env) = Return refusal /\
   ok refusal = false) /\
  install_to_vcs Scenario.foo "registry-id" false env [] =
    (install_error RegistriesNotRetrieved refusal,
     [] ++ [Get (registries_url env) (Return refusal)]).
Proof.
  intros env. split; [split; reflexivity |].
  exact (install_to_vcs_get_refused Scenario.foo "registry-id" false env []
           refusal eq_refl eq_refl).
Defined.

(** The refusal above comes out as [InstallError] with the vault's own
    words. *)
Example install_to_vcs_refusal_message :
  install_error RegistriesNotRetrieved refusal =
    Raise (InstallError (RegistriesNotRetrieved (JString "Oh no"))).
Proof. reflexivity. Qed.

Lemma install_to_vcs_unknown_registry_witness :
  let answer := Scenario.response true 200 (JObject ∅) in
  let env := vault_listing answer in
  (requests_get env [] (registries_url env) = Return answer /\
   ok answer = true /\
   json_body answer = Return (JObject ∅) /\
   py_get (JObject ∅) "data" (JObject ∅) = Return (JObject ∅) /\
   py_get (JObject ∅) "content" (JObject ∅) = Return (JObject ∅) /\
   py_in "registry-id" (JObject ∅) = Return false) /\
  install_to_vcs Scenario.foo "registry-id" false env [] =
    (Raise (InstallError (NotARegistry "registry-id")),
     [] ++ [Get (registries_url env) (Return answer)]).
Proof.
  intros answer env. split; [repeat split |].
  exact (install_to_vcs_unknown_registry Scenario.foo "registry-id" false env
           [] answer (JObject ∅) (JObject ∅) (JObject ∅)
           eq_refl eq_refl eq_refl eq_refl eq_refl eq_refl).
Defined.

(** X19. Once the vault lists the registry, the answer to the release
    decides.  [install_to_vcs] asks for the user name and the full name,
    posts once, and then: an [ok] answer makes it return and report the
    installation once; status 409 raises [DefinitionExists] for the
    definition; any other status raises [InstallError] with the message of
    the server (["unknown"] when the answer carries none); a request that
    fails comes out with its own exception.  Only the [ok] answer is
    reported. *)
Theorem install_to_vcs_outcome (definition : WizDefinition)
    (registry_identifier : string) (overwrite : bool) (env : Env)
    (log : list Event) (response : Response) (body data listed : json) :
  requests_get env log (registries_url env) = Return response ->
  ok response = true ->
  json_body response = Return body ->
  py_get body "data" (JObject ∅) = Return data ->
  py_get data "content" (JObject ∅) = Return listed ->
  py_in registry_identifier listed = Return true ->
  let log1 := log ++ [Get (registries_url env) (Return response)] in
  let username := get_username env log1 in
  let log2 := log1 ++ [GetUsername username] in
  let name := get_name env log2 in
  let log3 := log2 ++ [GetName name] in
  let params : gmap string string :=
    {[ "overwrite" := json_dumps_bool overwrite ]} in
  let form := release_form definition username name in
  let answer :=
    requests_post env log3 (release_url env registry_identifier) params
      form in
  let posted :=
    log3 ++ [Post (release_url env registry_identifier) params form answer] in
  install_to_vcs definition registry_identifier overwrite env log =
    match answer with
    | Return released =>
        if ok released then
          (Return tt,
           posted ++
           [Info (Installed (identifier definition) (version definition)
                            registry_identifier)])
        else if (status_code released =? 409)%Z then
          (Raise (DefinitionExists
                    (AlreadyExists (identifier definition)
                                   (version definition))),
           posted)
        else
          (install_error (CouldNotInstall registry_identifier) released,
           posted)
    | Raise e => (Raise e, posted)
    end.
Proof.
  intros Hget Hok Hbody Hdata Hlisted Hin. cbv zeta.
  unfold install_to_vcs, bind at 1, asks.
  unfold bind at 1, requests_get_, call_outcome.
  fold (registries_url env). rewrite Hget, Hok.
  change (negb true) with false. cbv beta iota.
  unfold bind at 1 2 3 4, lift. rewrite Hbody, Hdata, Hlisted, Hin.
  change (negb true) with false. cbv beta iota.
  unfold bind at 1 2, get_username_, get_name_, call.
  set (log1 := log ++ [Get (registries_url env) (Return response)]).
  set (username := get_username env log1).
  set (log2 := log1 ++ [GetUsername username]).
  set (name := get_name env log2).
  set (log3 := log2 ++ [GetName name]).
  unfold bind, requests_post_, call_outcome.
  fold (release_url env registry_identifier).
  fold (release_form definition username name).
  set (answer := requests_post env log3 _ _ _).
  destruct answer as [released|e].
  - apply release_outcome_reads.
  - reflexivity.
Qed.

Lemma install_to_vcs_outcome_witness :
  let answer := Scenario.response true 200 Scenario.registries_body in
  let env := vault_listing answer in
  (requests_get env [] (registries_url env) = Return answer /\
   ok answer = true /\
   json_body answer = Return Scenario.registries_body /\
   py_get Scenario.registries_body "data" (JObject ∅) = Return listing_data /\
   py_get listing_data "content" (JObject ∅) = Return listed_registries /\
   py_in "registry-id" listed_registries = Return true) /\
  install_to_vcs Scenario.foo "registry-id" true env [] =
    (Return tt,
     [Get (registries_url env) (Return answer);
      GetUsername "jdoe";
      GetName None;
      Post (release_url env "registry-id") {[ "overwrite" := "true" ]}
        (release_form Scenario.foo "jdoe" None) (Return Scenario.created);
      Info (Installed "foo" (Some "0.1.0") "registry-id")]).
Proof.
  intros answer env. split; [repeat split |].
  exact (install_to_vcs_outcome Scenario.foo "registry-id" true env []
           answer Scenario.registries_body listing_data listed_registries
           eq_refl eq_refl eq_refl eq_refl eq_refl eq_refl).
Defined.

(** X20. [install_to_vcs] posts a release only after the vault answered
    the listing with success and the listing holds the registry
    identifier; the release then goes to the address of that registry, with
    the [overwrite] switch as [json.dumps] writes it. *)
Theorem install_to_vcs_posts_only_when_listed (env : Env)
    (log : list Event) (definition : WizDefinition)
    (registry_identifier : string) (overwrite : bool) (url : string)
    (params : gmap string string) (data : gmap string FormValue)
    (answer : outcome Response) :
  Forall (fun e => is_post e = false) log ->
  In (Post url params data answer)
     (snd (install_to_vcs definition registry_identifier overwrite env log)) ->
  exists response body data_ listed,
    requests_get env log (registries_url env) = Return response /\
    ok response = true /\
    json_body response = Return body /\
    py_get body "data" (JObject ∅) = Return data_ /\
    py_get data_ "content" (JObject ∅) = Return listed /\
    py_in registry_identifier listed = Return true /\
    url = release_url env registry_identifier /\
    params = {[ "overwrite" := json_dumps_bool overwrite ]}.
Proof.
  intros Hlog Hin.
  assert (Hold : ~ In (Post url params data answer) log).
  { intros H. rewrite List.Forall_forall in Hlog. apply Hlog in H.
    discriminate H. }
  assert (Hstop : forall response_,
             ~ In (Post url params data answer)
                 (log ++ [Get (registries_url env) response_])).
  { intros r H. apply in_app_or in H as [H | [H | []]];
      [exact (Hold H) | discriminate H]. }
  unfold install_to_vcs, bind at 1, asks in Hin.
  unfold bind at 1, requests_get_, call_outcome in Hin.
  fold (registries_url env) in Hin.
  destruct (requests_get env log (registries_url env)) as [response|e]
    eqn:Hget; [| exfalso; exact (Hstop _ Hin)].
  destruct (ok response) eqn:Hok.
  2: { change (negb false) with true in Hin. cbv beta iota in Hin.
       unfold bind in Hin. rewrite error_message_run in Hin.
       exfalso. destruct (server_message response);
         exact (Hstop _ Hin). }
  change (negb true) with false in Hin. cbv beta iota in Hin.
  unfold bind at 1, lift in Hin.
  destruct (json_body response) as [body|e] eqn:Hbody;
    [| exfalso; exact (Hstop _ Hin)].
  unfold bind at 1 in Hin.
  destruct (py_get body "data" (JObject ∅)) as [data_|e] eqn:Hdata;
    [| exfalso; exact (Hstop _ Hin)].
  unfold bind at 1 in Hin.
  destruct (py_get data_ "content" (JObject ∅)) as [listed|e] eqn:Hlisted;
    [| exfalso; exact (Hstop _ Hin)].
  unfold bind at 1 in Hin.
  destruct (py_in registry_identifier listed) as [[]|e] eqn:Hknown;
    [| exfalso; exact (Hstop _ Hin) | exfalso; exact (Hstop _ Hin)].
  exists response, body, data_, listed.
  repeat (split; [reflexivity || assumption |]).
  change (negb true) with false in Hin. cbv beta iota in Hin.
  unfold bind at 1 2, get_username_, get_name_, call in Hin.
  unfold bind, requests_post_, call_outcome in Hin.
  cbv beta iota zeta in Hin.
  fold (release_url env registry_identifier) in Hin.
  match type of Hin with
  | context [requests_post env ?l ?u ?p ?f] =>
      destruct (requests_post env l u p f) as [released|e]
  end.
  - rewrite release_outcome_reads in Hin.
    destruct (ok released);
      [| destruct (status_code released =? 409)%Z]; cbn [snd] in Hin;
      repeat (apply in_app_or in Hin as [Hin | Hin]);
      repeat (destruct Hin as [Hin | Hin]);
      try discriminate Hin; try contradiction;
      try (exfalso; exact (Hold Hin));
      inversion Hin; subst; split; reflexivity.
  - cbn [snd] in Hin.
    repeat (apply in_app_or in Hin as [Hin | Hin]);
      repeat (destruct Hin as [Hin | Hin]);
      try discriminate Hin; try contradiction;
      try (exfalso; exact (Hold Hin));
      inversion Hin; subst; split; reflexivity.
Qed.

Lemma install_to_vcs_posts_only_when_listed_witness :
  let answer := Scenario.response true 200 Scenario.registries_body in
  let env := vault_listing answer in
  let form := release_form Scenario.foo "jdoe" None in
  (Forall (fun e => is_post e = false) [] /\
   In (Post (release_url env "registry-id") {[ "overwrite" := "true" ]} form
         (Return Scenario.created))
      (snd (install_to_vcs Scenario.foo "registry-id" true env []))) /\
  exists response body data_ listed,
    requests_get env [] (registries_url env) = Return response /\
    ok response = true /\
    json_body response = Return body /\
    py_get body "data" (JObject ∅) = Return data_ /\
    py_get data_ "content" (JObject ∅) = Return listed /\
    py_in "registry-id" listed = Return true /\
    release_url env "registry-id" = release_url env "registry-id" /\
    ({[ "overwrite" := "true" ]} : gmap string string) =
      {[ "overwrite" := json_dumps_bool true ]}.
Proof.
  intros answer env form.
  assert (H1 : Forall (fun e => is_post e = false) []) by constructor.
  assert (H2 : In (Post (release_url env "registry-id")
                     {[ "overwrite" := "true" ]} form
                     (Return Scenario.created))
                  (snd (install_to_vcs Scenario.foo "registry-id" true env
                          []))).
  { vm_compute. right. right. right. left. reflexivity. }
  split; [split; assumption |].
  exact (install_to_vcs_posts_only_when_listed env [] Scenario.foo
           "registry-id" true _ _ _ _ H1 H2).
Defined.

(** X21. A refusal of the listing whose [error] member is there but is not
    an object: reading the message fails, and what [install_to_vcs] raises
    is [AttributeError], not [InstallError]; nothing is posted. *)
Theorem install_to_vcs_odd_error_body (definition : WizDefinition)
    (registry_identifier : string) (overwrite : bool) (env : Env)
    (log : list Event) (response : Response) (members : gmap string json)
    (error : json) :
  requests_get env log (registries_url env) = Return response ->
  ok response = false ->
  json_body response = Return (JObject members) ->
  members !! "error" = Some error ->
  (forall m, error <> JObject m) ->
  install_to_vcs definition registry_identifier overwrite env log =
    (Raise AttributeError,
     log ++ [Get (registries_url env) (Return response)]).
Proof.
  intros Hget Hok Hbody Herror Hodd.
  unfold install_to_vcs, bind at 1, asks.
  unfold bind at 1, requests_get_, call_outcome.
  fold (registries_url env). rewrite Hget, Hok.
  change (negb false) with true. cbv beta iota.
  unfold bind. rewrite error_message_run.
  unfold server_message. rewrite Hbody. cbn [py_get]. rewrite Herror.
  cbn [default from_option id].
  destruct error; try reflexivity. exfalso. now apply (Hodd members0).
Qed.

Lemma install_to_vcs_odd_error_body_witness :
  let env := vault_listing odd_refusal in
  (requests_get env [] (registries_url env) = Return odd_refusal /\
   ok odd_refusal = false /\
   json_body odd_refusal =
     Return (JObject {[ "error" := JString "Oh no" ]}) /\
   ({[ "error" := JString "Oh no" ]} : gmap string json) !! "error" =
     Some (JString "Oh no") /\
   (forall m, JString "Oh no" <> JObject m)) /\
  install_to_vcs Scenario.foo "registry-id" false env [] =
    (Raise AttributeError,
     [] ++ [Get (registries_url env) (Return odd_refusal)]).
Proof.
  intros env.
  assert (H : forall m, JString "Oh no" <> JObject m) by discriminate.
  split; [repeat split; exact H |].
  exact (install_to_vcs_odd_error_body Scenario.foo "registry-id" false env
           [] odd_refusal {[ "error" := JString "Oh no" ]} (JString "Oh no")
           eq_refl eq_refl eq_refl eq_refl H).
Defined.

(** ** More on [shell] *)

Section ShellTraceFacts.

Import Spawn.

Variable Mode : Type.
Variable raw : Mode -> Mode.

Lemma loop_entries (P : Entry Mode -> Prop) :
  P (Once Poll) -> P (Once Select) ->
  (forall r : Round, P (Turn r (snd (turn r)))) ->
  forall (script : list Tick) (w : World Mode),
    exists added,
      trace (snd (loop script w)) = trace w ++ added /\ Forall P added.
Proof.
  intros Hpoll Hselect Hturn script.
  induction script as [|tick script IH]; intros w.
  - exists []. split; [now rewrite app_nil_r | constructor].
  - destruct tick as [code | r | e]; simpl.
    + exists [Once Poll]. split; [reflexivity | now constructor].
    + pose proof (Hturn r) as Hr.
      destruct (turn r) as [verdict calls]. simpl in Hr.
      set (w' := record _ (Turn r calls) _).
      destruct verdict as [[]|e].
      * destruct (IH w') as (added & -> & Hadded).
        exists (Once Poll :: Once Select :: Turn r calls :: added).
        split; [simpl; now rewrite <- !app_assoc |].
        repeat first [assumption | constructor].
      * exists [Once Poll; Once Select; Turn r calls].
        split; [simpl; now rewrite <- !app_assoc |].
        repeat first [assumption | constructor].
    + exists [Once Poll; Once Select].
      split; [simpl; now rewrite <- !app_assoc |].
      repeat first [assumption | constructor].
Qed.

Lemma shell_entries (P : Entry Mode -> Prop) :
  (forall c : Call Mode, setup_call c = true -> P (Once c)) ->
  (forall r : Round, P (Turn r (snd (turn r)))) ->
  forall (environment : gmap string string) (shell_type : string)
         (script : Script) (w : World Mode),
    exists added,
      trace (snd (shell raw environment shell_type script w)) =
        trace w ++ added /\
      Forall P added.
Proof.
  intros Hsetup Hturn environment shell_type script w.
  assert (Hget := Hsetup Tcgetattr eq_refl).
  assert (Hraw := Hsetup Setraw eq_refl).
  assert (Hpty := Hsetup Openpty eq_refl).
  assert (Hset := Hsetup (Tcsetattr (tty w)) eq_refl).
  unfold shell, attempt.
  destruct (tcgetattr_error script);
    [exists [Once Tcgetattr]; split; [reflexivity | now repeat constructor] |].
  destruct (setraw_error script);
    [exists [Once Tcgetattr; Once Setraw];
       split; [simpl; now rewrite <- app_assoc | now repeat constructor] |].
  destruct (openpty_error script);
    [exists [Once Tcgetattr; Once Setraw; Once Openpty];
       split; [simpl; now rewrite <- !app_assoc | now repeat constructor] |].
  set (executable := find_executable script shell_type).
  assert (Hpopen := Hsetup (Popen executable environment) eq_refl).
  set (spawned := Once (Popen executable environment)) in *.
  destruct (match executable with
            | Some _ => popen_error script
            | None => Some TypeError
            end);
    [exists [Once Tcgetattr; Once Setraw; Once Openpty; spawned];
       split; [simpl; now rewrite <- !app_assoc | now repeat constructor] |].
  match goal with
  | |- context [loop (ticks script) ?w0] =>
      destruct (loop_entries P (Hsetup Poll eq_refl) (Hsetup Select eq_refl)
                  Hturn (ticks script) w0) as (added & Hadded & Hall);
      destruct (loop (ticks script) w0) as [[| e |] w'] eqn:Hloop
  end; simpl in Hadded.
  - destruct (tcsetattr_error script); simpl; rewrite Hadded;
      [exists (Once Tcgetattr :: Once Setraw :: Once Openpty :: spawned
                 :: added ++ [Once (Tcsetattr (tty w))])
      |exists (Once Tcgetattr :: Once Setraw :: Once Openpty :: spawned
                 :: added ++ [Once (Tcsetattr (tty w))])];
      (split; [simpl; now rewrite <- !app_assoc |]);
      repeat (constructor; [assumption |]);
      (apply Forall_app; split; [assumption | now repeat constructor]).
  - exists (Once Tcgetattr :: Once Setraw :: Once Openpty :: spawned :: added).
    split; [simpl; rewrite Hadded; simpl; now rewrite <- !app_assoc |].
    repeat first [assumption | constructor].
  - exists (Once Tcgetattr :: Once Setraw :: Once Openpty :: spawned :: added).
    split; [simpl; rewrite Hadded; simpl; now rewrite <- !app_assoc |].
    repeat first [assumption | constructor].
Qed.

Lemma turn_forwards (r : Round) :
  let e := Turn (Mode := Mode) r (snd (turn r)) in
  written Master e = read_from Stdin e /\
  written Stdout e = read_from Master e.
Proof.
  unfold turn.
  destruct (ready Stdin (read_list r)).
  - destruct (read_answer r) as [message|e] eqn:Hread; simpl; rewrite Hread;
      split; try reflexivity. now rewrite app_nil_r.
  - destruct (ready Master (read_list r)); [| split; reflexivity].
    destruct (read_answer r) as [[|b message]|e] eqn:Hread; simpl;
      rewrite ?Hread; split; try reflexivity.
    now rewrite app_nil_r.
Qed.

Lemma concat_map_agree {A B : Type} (f g : A -> list B) (l : list A) :
  Forall (fun a => f a = g a) l ->
  List.concat (map f l) = List.concat (map g l).
Proof.
  induction 1 as [|a l Ha _ IH]; [reflexivity |].
  simpl. now rewrite Ha, IH.
Qed.

(** X23. [shell] relays without loss or reordering: over a whole call,
    the bytes it hands to [os.write] for the pseudo-terminal are the bytes
    [os.read] returned from standard input, and the bytes it hands to
    [os.write] for standard output are the bytes [os.read] returned from
    the pseudo-terminal, in the same order.  This holds for every script of
    operating-system answers, whether the call returns, raises or is still
    in its loop. *)
Theorem shell_forwards_what_it_reads (environment : gmap string string)
    (shell_type : string) (script : Script) (w : World Mode) :
  exists added : list (Entry Mode),
    trace (snd (shell raw environment shell_type script w)) =
      trace w ++ added /\
    List.concat (map (written Master) added) =
      List.concat (map (read_from Stdin) added) /\
    List.concat (map (written Stdout) added) =
      List.concat (map (read_from Master) added).
Proof.
  destruct (shell_entries
              (fun e => written Master e = read_from Stdin e /\
                        written Stdout e = read_from Master e))
    with (environment := environment) (shell_type := shell_type)
         (script := script) (w := w) as (added & Htrace & Hall).
  - intros c Hc. destruct c; try discriminate Hc; split; reflexivity.
  - exact turn_forwards.
  - exists added. split; [exact Htrace |].
    split; apply concat_map_agree;
      (eapply Forall_impl; [exact Hall |]); intros e [H1 H2]; assumption.
Qed.

Lemma loop_no_restore (script : list Tick) :
  forall w : World Mode,
    exists added,
      trace (snd (loop script w)) = trace w ++ added /\
      Forall (fun e => restores e = false) added /\
      (fst (loop script w) = Returned ->
       exists returncode, In (Exited returncode) script).
Proof.
  induction script as [|tick script IH]; intros w.
  - exists []. split; [now rewrite app_nil_r |].
    split; [constructor | discriminate].
  - destruct tick as [code | r | e]; simpl.
    + exists [Once Poll]. split; [reflexivity |].
      split; [now repeat constructor |]. intros _. exists code. now left.
    + destruct (turn r) as [verdict calls].
      set (w' := record _ (Turn r calls) _).
      destruct verdict as [[]|e].
      * destruct (IH w') as (added & -> & Hadded & Hexit).
        exists (Once Poll :: Once Select :: Turn r calls :: added).
        split; [simpl; now rewrite <- !app_assoc |].
        split; [now repeat constructor |].
        intros H. destruct (Hexit H) as [code Hcode].
        exists code. now right.
      * exists [Once Poll; Once Select; Turn r calls].
        split; [simpl; now rewrite <- !app_assoc |].
        split; [now repeat constructor | discriminate].
    + exists [Once Poll; Once Select].
      split; [simpl; now rewrite <- !app_assoc |].
      split; [now repeat constructor | discriminate].
Qed.

(** X24. [shell] calls [termios.tcsetattr] at most once, as its very last
    call, with the mode it found at entry, and only after [process.poll()]
    reported that the child has exited.  A call that does not return without
    reaching that point never issued it. *)
Theorem shell_restores_last_and_once (environment : gmap string string)
    (shell_type : string) (script : Script) (w : World Mode) :
  let run := shell raw environment shell_type script w in
  exists before last : list (Entry Mode),
    trace (snd run) = trace w ++ before ++ last /\
    Forall (fun e => restores e = false) before /\
    ((last = [] /\ fst run <> Returned) \/
     (last = [Once (Tcsetattr (tty w))] /\
      exists returncode, In (Exited returncode) (ticks script))).
Proof.
  unfold shell, attempt.
  destruct (tcgetattr_error script);
    [exists [Once Tcgetattr], []; split; [reflexivity |];
     split; [now repeat constructor |];
     left; split; [reflexivity | discriminate] |].
  destruct (setraw_error script);
    [exists [Once Tcgetattr; Once Setraw], [];
     split; [simpl; now rewrite <- app_assoc |];
     split; [now repeat constructor |];
     left; split; [reflexivity | discriminate] |].
  destruct (openpty_error script);
    [exists [Once Tcgetattr; Once Setraw; Once Openpty], [];
     split; [simpl; now rewrite <- !app_assoc |];
     split; [now repeat constructor |];
     left; split; [reflexivity | discriminate] |].
  set (executable := find_executable script shell_type).
  set (spawned := Once (Popen executable environment)).
  destruct (match executable with
            | Some _ => popen_error script
            | None => Some TypeError
            end);
    [exists [Once Tcgetattr; Once Setraw; Once Openpty; spawned], [];
     split; [simpl; now rewrite <- !app_assoc |];
     split; [now repeat constructor |];
     left; split; [reflexivity | discriminate] |].
  match goal with
  | |- context [loop (ticks script) ?w0] =>
      destruct (loop_no_restore (ticks script) w0)
        as (added & Hadded & Hnone & Hexit);
      destruct (loop (ticks script) w0) as [[| e |] w'] eqn:Hloop
  end; simpl in Hadded, Hexit.
  - exists (Once Tcgetattr :: Once Setraw :: Once Openpty :: spawned :: added),
           [Once (Tcsetattr (tty w))].
    split.
    + destruct (tcsetattr_error script); simpl; rewrite Hadded; simpl;
        now rewrite <- !app_assoc.
    + split; [repeat (constructor; [reflexivity |]); exact Hnone |].
      right. split; [reflexivity | now apply Hexit].
  - exists (Once Tcgetattr :: Once Setraw :: Once Openpty :: spawned :: added),
           [].
    split; [simpl; rewrite Hadded, app_nil_r; simpl;
            now rewrite <- !app_assoc |].
    split; [repeat (constructor; [reflexivity |]); exact Hnone |].
    left. split; [reflexivity | discriminate].
  - exists (Once Tcgetattr :: Once Setraw :: Once Openpty :: spawned :: added),
           [].
    split; [simpl; rewrite Hadded, app_nil_r; simpl;
            now rewrite <- !app_assoc |].
    split; [repeat (constructor; [reflexivity |]); exact Hnone |].
    left. split; [reflexivity | discriminate].
Qed.

(** X25. No executable of that name: [find_executable] answers [None],
    and [shell] finds out only when [Popen] refuses it with a [TypeError].
    By then the terminal is in raw mode and the pseudo-terminal is open;
    [shell] raises without polling, relaying or restoring anything. *)
Theorem shell_without_executable (environment : gmap string string)
    (shell_type : string) (script : Script) (w : World Mode) :
  find_executable script shell_type = None ->
  tcgetattr_error script = None -> setraw_error script = None ->
  openpty_error script = None ->
  let run := shell raw environment shell_type script w in
  fst run = Raised TypeError /\
  tty (snd run) = raw (tty w) /\
  trace (snd run) =
    trace w ++
    [Once Tcgetattr; Once Setraw; Once Openpty;
     Once (Popen None environment)].
Proof.
  intros Hexe Hget Hraw Hpty.
  unfold shell, attempt. rewrite Hexe, Hget, Hraw, Hpty. cbv zeta.
  split; [reflexivity |]. split; [reflexivity |].
  simpl. now rewrite <- !app_assoc.
Qed.

End ShellTraceFacts.

Lemma shell_without_executable_witness :
  let script := nothing_installed [Spawn.Exited 0] in
  let run := Spawn.shell Tty.setraw ∅ "fish" script Scenario.at_login in
  (Spawn.find_executable script "fish" = None /\
   Spawn.tcgetattr_error script = None /\
   Spawn.setraw_error script = None /\
   Spawn.openpty_error script = None) /\
  fst run = Spawn.Raised Spawn.TypeError /\
  Spawn.tty (snd run) = Tty.setraw Tty.cooked /\
  Spawn.trace (snd run) =
    [] ++
    [Spawn.Once Spawn.Tcgetattr; Spawn.Once Spawn.Setraw;
     Spawn.Once Spawn.Openpty; Spawn.Once (Spawn.Popen None ∅)].
Proof.
  intros script run. split; [repeat split |].
  exact (shell_without_executable Tty.termios Tty.setraw ∅ "fish" script
           Scenario.at_login eq_refl eq_refl eq_refl eq_refl).
Defined.

(** A short session: what was typed reaches the pseudo-terminal, what the
    child printed reaches standard output. *)
Example session_relayed :
  let run :=
    Spawn.shell Tty.setraw ∅ "bash"
      (Scenario.session
         [Spawn.Selected (Scenario.keystroke "ls");
          Spawn.Selected (Scenario.output "a b");
          Spawn.Selected (Scenario.both_ready "q");
          Spawn.Exited 0])
      Scenario.at_login in
  List.concat (map (written Spawn.Master) (Spawn.trace (snd run))) =
    Scenario.bytes_of "lsq" /\
  List.concat (map (written Spawn.Stdout) (Spawn.trace (snd run))) =
    Scenario.bytes_of "a b".
Proof. split; reflexivity. Qed.
